(** * Dashport strategies: the OAuth 2.0 authorization-code flow

    A shallow embedding of the strategy classes of the repository
    ([SpotifyStrategy], [GitHubStrategy], [LocalStrategy]) and the
    properties of their URI codec, phase dispatch and error handling.

    JavaScript strings are modelled as [string] (a sequence of code
    units), option bags as the list of entries that [Object.entries]
    yields, promises as completions (fulfilled or rejected) together with
    the list of outbound effects performed. *)

From Stdlib Require Import String Ascii List ZArith Lia Bool Arith.
From Stdlib Require Import Permutation.
Import ListNotations.
Open Scope string_scope.

(** ** The JavaScript string and array primitives the strategies call *)

Module JS.

(** [s.substring(n)] for [n >= 0]: the string without its first [n]
    code units. *)
Fixpoint drop (n : nat) (s : string) : string :=
  match n, s with
  | O, _ => s
  | S _, EmptyString => EmptyString
  | S n', String _ s' => drop n' s'
  end.

(** [s.slice(b, e)]: negative indices count from the end, both are
    clamped to the string. *)
Definition slice (s : string) (b e : Z) : string :=
  let len := Z.of_nat (String.length s) in
  let from := if (b <? 0)%Z then Z.max (len + b) 0 else Z.min b len in
  let to := if (e <? 0)%Z then Z.max (len + e) 0 else Z.min e len in
  substring (Z.to_nat from) (Z.to_nat (Z.max (to - from) 0)) s.

(** [s[i]]: [None] stands for [undefined] (index out of range). *)
Definition at_ (s : string) (i : Z) : option ascii :=
  if (i <? 0)%Z then None else get (Z.to_nat i) s.

(** [s.includes(pat)] *)
Fixpoint includes (s pat : string) : bool :=
  if prefix pat s then true
  else match s with
       | EmptyString => false
       | String _ s' => includes s' pat
       end.

(** [s.replace(pat, rep)] with a string pattern: only the first
    occurrence is replaced.  (The replacement strings used by the
    strategies are single characters, none of which forms a [$]
    replacement pattern.) *)
Fixpoint replace (s pat rep : string) : string :=
  if prefix pat s then rep ++ drop (String.length pat) s
  else match s with
       | EmptyString => EmptyString
       | String c s' => String c (replace s' pat rep)
       end.

(** [s.split(sep)] for a separator of one code unit, as the strategies
    use it (['='] and ['&']). *)
Fixpoint split (s : string) (sep : ascii) : list string :=
  match s with
  | EmptyString => [EmptyString]
  | String c s' =>
      if Ascii.eqb c sep then EmptyString :: split s' sep
      else match split s' sep with
           | [] => [String c EmptyString]
           | h :: t => String c h :: t
           end
  end.

(** [arr.includes(x)] on an array of strings. *)
Definition Array_includes (arr : list string) (x : string) : bool :=
  existsb (String.eqb x) arr.

End JS.

(** ** The URI codec *)

(** An option bag, as the list of [[key, value]] pairs that
    [Object.entries] returns for it: one pair per own property, in the
    object's property order (insertion order for the non-numeric keys the
    strategies use). *)
Definition Entries := list (string * string).

(** [options.key]: [None] is [undefined]. *)
Fixpoint prop (options : Entries) (key : string) : option string :=
  match options with
  | [] => None
  | (k, v) :: rest => if String.eqb k key then Some v else prop rest key
  end.

(** [skip && skip.includes(key)]: [skip] is an optional parameter. *)
Definition skipped (skip : option (list string)) (key : string) : bool :=
  match skip with
  | Some arr => JS.Array_includes arr key
  | None => false
  end.

(** [constructURI(options, skip)], the same method text in
    [SpotifyStrategy] and [GitHubStrategy]. *)
Definition constructURI (options : Entries) (skip : option (list string))
  : string :=
  let paramArray := options in
  let paramString :=
    fold_left
      (fun (paramString : string) (entry : string * string) =>
         let '(key, value) := entry in
         if skipped skip key then paramString
         else (paramString ++ (key ++ "=")) ++ (value ++ "&"))
      paramArray "" in
  match JS.at_ paramString (Z.of_nat (String.length paramString) - 1) with
  | Some c =>
      if Ascii.eqb c "&" then JS.slice paramString 0 (-1) else paramString
  | None => paramString
  end.

(** The entries that survive the skip list, and the text of one entry. *)
Definition kept (options : Entries) (skip : option (list string)) : Entries :=
  filter (fun kv => negb (skipped skip (fst kv))) options.

Definition key_value (kv : string * string) : string :=
  fst kv ++ "=" ++ snd kv.

(** A string without any ['&']. *)
Definition no_amp (s : string) : Prop := JS.includes s "&" = false.

(** Entries that can be read back from their text: no ['&'] in keys or
    values, no ['='] in keys. *)
Definition readable (l : Entries) : Prop :=
  forall kv, In kv l ->
    no_amp (fst kv) /\ no_amp (snd kv) /\ JS.includes (fst kv) "=" = false.

(** The table of [parseCode], as [Object.keys] lists it (insertion
    order), each code with its replacement. *)
Definition replacements : list (string * string) :=
  [ ("%24", "$"); ("%26", "&"); ("%2B", "+"); ("%2C", ","); ("%2F", "/");
    ("%3A", ":"); ("%3B", ";"); ("%3D", "="); ("%3F", "?"); ("%40", "@") ].

(** [while (encodedCode.includes(pat))
       encodedCode = encodedCode.replace(pat, rep);]
    The loop is modelled with fuel: [None] means the loop was still
    running when the fuel ran out. *)
Fixpoint replace_while (fuel : nat) (pat rep : string) (encodedCode : string)
  : option string :=
  if JS.includes encodedCode pat then
    match fuel with
    | O => None
    | S fuel' => replace_while fuel' pat rep (JS.replace encodedCode pat rep)
    end
  else Some encodedCode.

(** The [for] loop over [toReplaceArray]. *)
Fixpoint parseCode_loop (fuel : nat) (toReplaceArray : list (string * string))
  (encodedCode : string) : option string :=
  match toReplaceArray with
  | [] => Some encodedCode
  | (pat, rep) :: rest =>
      match replace_while fuel pat rep encodedCode with
      | Some encodedCode' => parseCode_loop fuel rest encodedCode'
      | None => None
      end
  end.

Definition parseCode_fuel (fuel : nat) (encodedCode : string) : option string :=
  parseCode_loop fuel replacements encodedCode.

(** [parseCode(encodedCode)].  The length of the input is enough fuel for
    every loop ([parseCode_fuel_total] below), so the second branch is
    never taken. *)
Definition parseCode (encodedCode : string) : string :=
  match parseCode_fuel (String.length encodedCode) encodedCode with
  | Some decoded => decoded
  | None => encodedCode
  end.

(** *** The decoder as the specification words it *)

(** What a table does with the two characters that follow a ['%']. *)
Definition Lookup := ascii -> ascii -> option ascii.

Definition entry_lookup (pat rep : string) : Lookup :=
  fun a b =>
    if String.eqb pat (String "%" (String a (String b "")))
    then match rep with
         | String c EmptyString => Some c
         | _ => None
         end
    else None.

Definition orelse (l1 l2 : Lookup) : Lookup :=
  fun a b => match l1 a b with Some c => Some c | None => l2 a b end.

Fixpoint table_lookup (table : list (string * string)) : Lookup :=
  match table with
  | [] => fun _ _ => None
  | (pat, rep) :: rest => orelse (entry_lookup pat rep) (table_lookup rest)
  end.

(** One pass from left to right: a ['%'] followed by the two characters
    of a table entry becomes the entry's literal character, every other
    character is copied. *)
Fixpoint decode_with (look : Lookup) (raw : string) : string :=
  match raw with
  | EmptyString => EmptyString
  | String x rest =>
      if Ascii.eqb x "%" then
        match rest with
        | String a (String b rest') =>
            match look a b with
            | Some c => String c (decode_with look rest')
            | None => String x (decode_with look rest)
            end
        | _ => String x (decode_with look rest)
        end
      else String x (decode_with look rest)
  end.

(** The ten reserved characters as the specification lists them, each
    after the two hexadecimal digits of its percent-encoding: [%24] is
    ['$'], [%26] is ['&'], ... [%40] is ['@']. *)
Definition reserved_characters : list (ascii * ascii * ascii) :=
  [ ("2", "4", "$"); ("2", "6", "&"); ("2", "B", "+"); ("2", "C", ",");
    ("2", "F", "/"); ("3", "A", ":"); ("3", "B", ";"); ("3", "D", "=");
    ("3", "F", "?"); ("4", "0", "@") ]%char.

Fixpoint reserved_lookup (table : list (ascii * ascii * ascii)) : Lookup :=
  fun a b =>
    match table with
    | [] => None
    | (x, y, c) :: rest =>
        if Ascii.eqb x a && Ascii.eqb y b then Some c
        else reserved_lookup rest a b
    end.

(** Specification of [decode]: the ten reserved characters, nothing
    else.  It does not read the table of [parseCode]. *)
Definition decode_spec (raw : string) : string :=
  decode_with (reserved_lookup reserved_characters) raw.

(** The value of an upper-case hexadecimal digit. *)
Definition hex_value (c : ascii) : nat :=
  let n := nat_of_ascii c in
  if Nat.leb n 57 then n - 48 else n - 55.

(** The characters the codes are written with (upper-case hexadecimal
    digits), and what makes a table safe to apply by repeated
    substitution: its literals are neither ['%'] nor such a digit. *)
Definition hexd (c : ascii) : bool :=
  let n := nat_of_ascii c in
  (Nat.leb 48 n && Nat.leb n 57) || (Nat.leb 65 n && Nat.leb n 70).

Definition good (look : Lookup) : Prop :=
  forall a b c, look a b = Some c ->
    hexd a = true /\ hexd b = true /\ hexd c = false /\ c <> "%"%char.

(** What the table finds at the head of the text that follows a ['%']. *)
Definition next_code (look : Lookup) (s : string) : option ascii :=
  match s with
  | String a (String b _) => look a b
  | _ => None
  end.

(** A table entry of the expected shape: ['%'] and two hexadecimal
    digits, replaced by one character that is neither. *)
Definition code_entry (pat rep : string) (a b c : ascii) : Prop :=
  pat = String "%" (String a (String b ""))
  /\ rep = String c ""
  /\ hexd a = true /\ hexd b = true /\ hexd c = false /\ c <> "%"%char.

Definition entry_ok (e : string * string) : Prop :=
  exists a b c, code_entry (fst e) (snd e) a b c.

(** ** Values, failures and effects *)

(** The values that reach the strategies from outside: parsed JSON and
    request bodies.  A number is kept as the text that
    [Number.prototype.toString] prints for it (["3600"], ["0.5"],
    ["1e+21"]): the strategies only copy numbers or print them. *)
#[warnings="-register-all"]
Inductive JSValue : Type :=
| VUndefined
| VNull
| VBool (b : bool)
| VNum (printed : string)
| VStr (s : string)
| VArr (elems : list JSValue)
| VObj (props : list (string * JSValue)).

(** What can be thrown, or reject a promise. *)
Inductive Exn : Type :=
| Error_ (message : string)
| TypeError (message : string)
| Rejection (reason : string).

(** [`${err}`]: [Error.prototype.toString] prints the name alone when the
    message is empty. *)
Definition Exn_toString (err : Exn) : string :=
  match err with
  | Error_ message =>
      if String.eqb message "" then "Error" else "Error: " ++ message
  | TypeError message =>
      if String.eqb message "" then "TypeError" else "TypeError: " ++ message
  | Rejection reason => reason
  end.

(** How an evaluation ends: with a value, or with something thrown (for
    an [async] function: fulfilled or rejected). *)
Inductive Completion (A : Type) : Type :=
| Return (a : A)
| Throw (e : Exn).
Arguments Return {A} a.
Arguments Throw {A} e.

Definition has_key (props : list (string * JSValue)) (key : string) : bool :=
  existsb (fun kv => String.eqb (fst kv) key) props.

(** String conversion, as [+] with a string and template literals apply
    it.  A parsed object prints through [Object.prototype.toString]
    unless it has a property [toString] of its own: that property is
    parsed data, not a function, so the conversion finds no method and
    throws.  An array prints its elements joined by [','], [null] and
    [undefined] as nothing, and throws when an element does. *)
Fixpoint ToString (v : JSValue) : Completion string :=
  match v with
  | VUndefined => Return "undefined"
  | VNull => Return "null"
  | VBool true => Return "true"
  | VBool false => Return "false"
  | VNum printed => Return printed
  | VStr s => Return s
  | VArr elems =>
      match
        (fix join (l : list JSValue) : Completion (list string) :=
           match l with
           | [] => Return []
           | e :: l' =>
               match
                 match e with
                 | VUndefined | VNull => Return ""
                 | _ => ToString e
                 end
               with
               | Throw x => Throw x
               | Return s =>
                   match join l' with
                   | Throw x => Throw x
                   | Return ss => Return (s :: ss)
                   end
               end
           end) elems
      with
      | Throw x => Throw x
      | Return ss => Return (String.concat "," ss)
      end
  | VObj props =>
      if has_key props "toString"
      then Throw (TypeError "Cannot convert object to primitive value")
      else Return "[object Object]"
  end.

(** The values of an object literal converted one after the other, as
    the loop of [constructURI] meets them in [value + '&']. *)
Fixpoint to_strings (entries : list (string * JSValue)) : Completion Entries :=
  match entries with
  | [] => Return []
  | (key, value) :: rest =>
      match ToString value with
      | Throw x => Throw x
      | Return s =>
          match to_strings rest with
          | Throw x => Throw x
          | Return ss => Return ((key, s) :: ss)
          end
      end
  end.

(** An optional string property used as a string: [undefined] prints as
    ["undefined"]. *)
Definition str (v : option string) : string :=
  match v with
  | Some s => s
  | None => "undefined"
  end.

(** [!v] for an optional string property. *)
Definition falsy (v : option string) : bool :=
  match v with
  | Some s => String.eqb s ""
  | None => true
  end.

(** An option that is absent or the empty string. *)
Definition missing_or_empty (opts : Entries) (key : string) : Prop :=
  prop opts key = None \/ prop opts key = Some "".

Fixpoint lookup (props : list (string * JSValue)) (key : string) : JSValue :=
  match props with
  | [] => VUndefined
  | (k, v) :: rest => if String.eqb k key then v else lookup rest key
  end.

(** [v.key]: reading a property of [undefined] or [null] throws; a
    property that is not there reads as [undefined].  (None of the keys
    the strategies read is a built-in property of strings, arrays or
    plain objects.) *)
Definition get_prop (v : JSValue) (key : string) : Completion JSValue :=
  match v with
  | VUndefined =>
      Throw (TypeError ("Cannot read properties of undefined (reading '"
                          ++ key ++ "')"))
  | VNull =>
      Throw (TypeError ("Cannot read properties of null (reading '"
                          ++ key ++ "')"))
  | VObj props => Return (lookup props key)
  | _ => Return VUndefined
  end.

(** [v === s] for a string literal [s]. *)
Definition is_string (v : JSValue) (s : string) : bool :=
  match v with
  | VStr s' => String.eqb s' s
  | _ => false
  end.

(** What [v.key] reads when [v] is neither [undefined] nor [null]. *)
Definition field (v : JSValue) (key : string) : JSValue :=
  match v with
  | VObj props => lookup props key
  | _ => VUndefined
  end.

(** An outbound HTTP request, as the arguments of [fetch]. *)
Record Request : Type := {
  url : string;
  method : option string;
  headers : list (string * string);
  body : option string
}.

(** What a strategy does to the outside. *)
Inductive Effect : Type :=
| Redirect (location : string)
| Fetch (req : Request).

(** An asynchronous computation: how it completes and the effects it
    performed, in order. *)
Definition Async (A : Type) : Type := (Completion A * list Effect)%type.

Definition ret {A} (a : A) : Async A := (Return a, []).

Definition throw {A} (e : Exn) : Async A := (Throw e, []).

Definition lift {A} (c : Completion A) : Async A := (c, []).

Definition perform (e : Effect) : Async unit := (Return tt, [e]).

Definition bind {A B} (m : Async A) (k : A -> Async B) : Async B :=
  let '(c, effs) := m in
  match c with
  | Return a => let '(r, effs') := k a in (r, (effs ++ effs')%list)
  | Throw e => (Throw e, effs)
  end.

(** [try { m } catch (err) { handler }] *)
Definition try_catch {A} (m : Async A) (handler : Exn -> Async A) : Async A :=
  let '(c, effs) := m in
  match c with
  | Return a => (Return a, effs)
  | Throw e => let '(r, effs') := handler e in (r, (effs ++ effs')%list)
  end.

Notation "x <- m ;; k" := (bind m (fun x => k))
  (at level 61, m at next level, right associativity).
Notation "m ;;; k" := (bind m (fun _ => k))
  (at level 61, right associativity).

Definition is_fetch (e : Effect) : bool :=
  match e with
  | Fetch _ => true
  | Redirect _ => false
  end.

(** The capabilities the host injects: the HTTP client ([fetch] and the
    [json()] of its responses) and the Base64 encoder that
    [SpotifyStrategy] imports. *)
Record World : Type := {
  Response : Type;
  fetch : Request -> Completion Response;
  json : Response -> Completion JSValue;
  Base64_fromString : string -> string
}.

(** [await fetch(...)] and [await data.json()] *)
Definition do_fetch (w : World) (req : Request) : Async (Response w) :=
  perform (Fetch req) ;;; lift (fetch w req).

Definition do_json (w : World) (data : Response w) : Async JSValue :=
  lift (json w data).

(** The JSON that a request yields, when it yields one. *)
Definition fetched_json (w : World) (req : Request) : Completion JSValue :=
  match fetch w req with
  | Return data => json w data
  | Throw e => Throw e
  end.

(** The part of Oak's context that the strategies read: the query string
    of the request URL and (for the local strategy) the reading of the
    request body. *)
Record OakContext : Type := {
  search : string;
  body_value : Async JSValue
}.

(** ** What a strategy hands back to the host *)

Record UserProfile : Type := {
  provider : string;
  providerUserId : JSValue;
  displayName : option JSValue;
  name_familyName : option JSValue;
  emails : option (list JSValue)
}.

Record AuthData : Type := {
  tokenData : list (string * JSValue);
  userInfo : UserProfile
}.

Inductive HostValue : Type :=
| HUndefined
| HError (message : string)
| HAuthData (authData : AuthData)
| HUserInfo (userInfo : JSValue).

(** The phase that the entry point picks for a request. *)
Inductive Phase : Type := Authorize | CodeExchange | Unhandled.

(** [JSON.stringify] of a flat object of strings: properties whose value
    is [undefined] are left out. *)
Definition dquote : string := String "034" "".

Definition hex_digit (n : nat) : ascii :=
  if Nat.ltb n 10 then ascii_of_nat (48 + n) else ascii_of_nat (87 + n).

Definition JSON_escape_char (c : ascii) : string :=
  let n := nat_of_ascii c in
  if Nat.eqb n 34 then "\" ++ dquote
  else if Nat.eqb n 92 then "\\"
  else if Nat.eqb n 8 then "\b"
  else if Nat.eqb n 9 then "\t"
  else if Nat.eqb n 10 then "\n"
  else if Nat.eqb n 12 then "\f"
  else if Nat.eqb n 13 then "\r"
  else if Nat.ltb n 32 then
    "\u00" ++ String (hex_digit (n / 16)) (String (hex_digit (n mod 16)) "")
  else String c "".

Fixpoint JSON_escape (s : string) : string :=
  match s with
  | EmptyString => EmptyString
  | String c s' => JSON_escape_char c ++ JSON_escape s'
  end.

Definition JSON_quote (s : string) : string :=
  dquote ++ JSON_escape s ++ dquote.

Definition JSON_stringify (obj : list (string * option string)) : string :=
  "{" ++ String.concat ","
           (flat_map (fun kv => match snd kv with
                                | Some v => [JSON_quote (fst kv) ++ ":" ++ JSON_quote v]
                                | None => []
                                end) obj)
      ++ "}".

(** The extraction of the authorization code, the same statements in
    both [getAuthToken] methods:
    [URI1 = OGURI.split('='); URI2 = URI1[1].split('&');
     code = this.parseCode(URI2[0])].
    [URI1[1]] is [undefined] when the query has no ['=']; calling
    [split] on it throws. *)
Definition authorization_code (OGURI : string) : Completion string :=
  let URI1 := JS.split OGURI "=" in
  match nth_error URI1 1 with
  | None =>
      Throw (TypeError "Cannot read properties of undefined (reading 'split')")
  | Some URI1_1 =>
      let URI2 := JS.split URI1_1 "&" in
      match nth_error URI2 0 with
      | None =>
          Throw (TypeError
                   "Cannot read properties of undefined (reading 'includes')")
      | Some URI2_0 => Return (parseCode URI2_0)
      end
  end.

(** *** The code segment as the specification words it *)

(** The text before the first [sep] (all of it when there is none), and
    the text after it. *)
Fixpoint before_first (sep : ascii) (s : string) : string :=
  match s with
  | EmptyString => EmptyString
  | String c s' =>
      if Ascii.eqb c sep then EmptyString else String c (before_first sep s')
  end.

Fixpoint after_first (sep : ascii) (s : string) : string :=
  match s with
  | EmptyString => EmptyString
  | String c s' => if Ascii.eqb c sep then s' else after_first sep s'
  end.

(** Specification of the extracted code: the segment between the first
    ['='] and the first ['&'] of the callback query, decoded. *)
Definition code_spec (query : string) : string :=
  decode_spec (before_first "&" (after_first "=" query)).

(** ** [SpotifyStrategy] *)

Module Spotify.

Definition name : string := "spotify".
Definition authURL : string := "https://accounts.spotify.com/authorize?".
Definition tokenURL : string := "https://accounts.spotify.com/api/token?".
Definition authDataURL : string := "https://api.spotify.com/v1/me?".

(** The fields that the constructor sets. *)
Record Strategy : Type := {
  options : Entries;
  uriFromParams : string
}.

Definition constructor (opts : Entries) : Completion Strategy :=
  if falsy (prop opts "client_id") || falsy (prop opts "redirect_uri")
     || falsy (prop opts "state") || falsy (prop opts "client_secret")
  then Throw (Error_ "ERROR in SpotifyStrategy constructor: Missing required arguments")
  else Return {| options := opts;
                 uriFromParams := constructURI opts (Some ["client_secret"]) |}.

(** STEP 1 *)
Definition authorize (this : Strategy) (ctx : OakContext) : Async HostValue :=
  perform (Redirect (authURL ++ uriFromParams this)) ;;; ret HUndefined.

(** The request of STEP 4.5, for the options as [constructURI] prints
    them. *)
Definition profileRequest (authOptions : Entries) : Request :=
  {| url := authDataURL ++ constructURI authOptions None;
     method := None; headers := []; body := None |}.

(** STEP 4 and 4.5.  The token fields are read before the [try]; the
    building of the URL ([authOptions] repeats the fields of
    [authData.tokenData], and [constructURI] converts each value when it
    appends it), the request, the parsing and the reading of [data.id]
    are inside it. *)
Definition getAuthData (w : World) (this : Strategy) (parsed : JSValue)
  : Async HostValue :=
  access_token <- lift (get_prop parsed "access_token") ;;
  token_type <- lift (get_prop parsed "token_type") ;;
  scope <- lift (get_prop parsed "scope") ;;
  expires_in <- lift (get_prop parsed "expires_in") ;;
  refresh_token <- lift (get_prop parsed "refresh_token") ;;
  let tokenData :=
    [ ("access_token", access_token); ("token_type", token_type);
      ("scope", scope); ("expires_in", expires_in);
      ("refresh_token", refresh_token) ] in
  let authOptions :=
    [ ("access_token", lookup tokenData "access_token");
      ("token_type", lookup tokenData "token_type");
      ("scope", lookup tokenData "scope");
      ("expires_in", lookup tokenData "expires_in");
      ("refresh_token", lookup tokenData "refresh_token") ] in
  try_catch
    (printed <- lift (to_strings authOptions) ;;
     data <- do_fetch w (profileRequest printed) ;;
     data <- do_json w data ;;
     id <- lift (get_prop data "id") ;;
     ret (HAuthData {| tokenData := tokenData;
                       userInfo := {| provider := name;
                                      providerUserId := id;
                                      displayName := None;
                                      name_familyName := None;
                                      emails := None |} |}))
    (fun err =>
       ret (HError ("ERROR in getAuthData: Unable to obtain auth data - "
                      ++ Exn_toString err))).

(** The request of STEP 3.5 for a given authorization code. *)
Definition tokenRequest (w : World) (this : Strategy) (code : string)
  : Request :=
  let bodyOptions :=
    [ ("grant_type", "authorization_code");
      ("code", code);
      ("redirect_uri", str (prop (options this) "redirect_uri")) ] in
  let b64 :=
    Base64_fromString w (str (prop (options this) "client_id") ++ ":"
                           ++ str (prop (options this) "client_secret")) in
  {| url := tokenURL;
     method := Some "POST";
     headers := [ ("Authorization", "Basic " ++ b64);
                  ("Content-Type", "application/x-www-form-urlencoded") ];
     body := Some (constructURI bodyOptions None) |}.

(** STEP 3 and 3.5.  [return this.getAuthData(data)] hands the promise
    on without awaiting it, so the [catch] does not cover it. *)
Definition getAuthToken (w : World) (this : Strategy) (ctx : OakContext)
  : Async HostValue :=
  let OGURI := search ctx in
  if JS.includes OGURI "error" then
    ret (HError "ERROR in getAuthToken: Received an error from auth token code request.")
  else
    code <- lift (authorization_code OGURI) ;;
    let tokenOptions := tokenRequest w this code in
    r <- try_catch
           (data <- do_fetch w tokenOptions ;;
            data <- do_json w data ;;
            type <- lift (get_prop data "type") ;;
            if is_string type "oAuthException" then
              ret (inl (HError "ERROR in getAuthToken: Token request threw OAuth exception."))
            else ret (inr data))
           (fun err =>
              ret (inl (HError ("ERROR in getAuthToken: Unable to obtain token - "
                                  ++ Exn_toString err)))) ;;
    match r with
    | inl v => ret v
    | inr data => getAuthData w this data
    end.

(** ENTRY POINT: the two tests of [router]. *)
Definition route (ctx : OakContext) : Phase :=
  if String.eqb (search ctx) "" then Authorize
  else if String.eqb (JS.slice (search ctx) 1 5) "code" then CodeExchange
  else Unhandled.

Definition router (w : World) (this : Strategy) (ctx : OakContext)
  : Async HostValue :=
  match route ctx with
  | Authorize => authorize this ctx
  | CodeExchange => getAuthToken w this ctx
  | Unhandled => ret HUndefined
  end.

End Spotify.

(** ** [GitHubStrategy] *)

Module GitHub.

Definition name : string := "github".
Definition authURL : string := "https://github.com/login/oauth/authorize?".
Definition tokenURL : string := "https://github.com/login/oauth/access_token?".
Definition authDataURL : string := "https://api.github.com/user?".

Record Strategy : Type := {
  options : Entries;
  uriFromParams : string
}.

Definition constructor (opts : Entries) : Completion Strategy :=
  if falsy (prop opts "client_id") || falsy (prop opts "redirect_uri")
     || falsy (prop opts "client_secret")
  then Throw (Error_ "ERROR in GitHubStrategy constructor: Missing required arguments")
  else Return {| options := opts;
                 uriFromParams := constructURI opts None |}.

(** STEP 1 *)
Definition authorize (this : Strategy) (ctx : OakContext) : Async HostValue :=
  perform (Redirect (authURL ++ uriFromParams this)) ;;; ret HUndefined.

(** The request of STEP 4.5, for the access token as the template
    literal prints it. *)
Definition profileRequest (access_token : string) : Request :=
  {| url := "https://api.github.com/user";
     method := None;
     headers := [ ("Authorization", "token " ++ access_token) ];
     body := None |}.

(** STEP 4 and 4.5.  The [Authorization] header is built inside the
    [try]. *)
Definition getAuthData (w : World) (this : Strategy) (parsed : JSValue)
  : Async HostValue :=
  access_token <- lift (get_prop parsed "access_token") ;;
  scope <- lift (get_prop parsed "scope") ;;
  token_type <- lift (get_prop parsed "token_type") ;;
  let tokenData :=
    [ ("access_token", access_token); ("scope", scope);
      ("token_type", token_type) ] in
  try_catch
    (printed <- lift (ToString (lookup tokenData "access_token")) ;;
     data <- do_fetch w (profileRequest printed) ;;
     data <- do_json w data ;;
     id <- lift (get_prop data "id") ;;
     login <- lift (get_prop data "login") ;;
     name_ <- lift (get_prop data "name") ;;
     email <- lift (get_prop data "email") ;;
     ret (HAuthData {| tokenData := tokenData;
                       userInfo := {| provider := name;
                                      providerUserId := id;
                                      displayName := Some login;
                                      name_familyName := Some name_;
                                      emails := Some [email] |} |}))
    (fun err =>
       ret (HError ("ERROR in getAuthData: Unable to obtain auth data - "
                      ++ Exn_toString err))).

(** The request of STEP 3.5 for a given authorization code. *)
Definition tokenRequest (this : Strategy) (code : string) : Request :=
  let tokenOptions :=
    [ ("client_id", prop (options this) "client_id");
      ("client_secret", prop (options this) "client_secret");
      ("redirect_uri", prop (options this) "redirect_uri");
      ("code", Some code) ] in
  {| url := "https://github.com/login/oauth/access_token";
     method := Some "POST";
     headers := [ ("Accept", "application/json");
                  ("Content-Type", "application/json") ];
     body := Some (JSON_stringify tokenOptions) |}.

(** STEP 3 and 3.5 *)
Definition getAuthToken (w : World) (this : Strategy) (ctx : OakContext)
  : Async HostValue :=
  let OGURI := search ctx in
  if JS.includes OGURI "error" then
    ret (HError "ERROR in getAuthToken: Received an error from auth token code request.")
  else
    code <- lift (authorization_code OGURI) ;;
    r <- try_catch
           (let options := tokenRequest this code in
            data <- do_fetch w options ;;
            data <- do_json w data ;;
            type <- lift (get_prop data "type") ;;
            if is_string type "oAuthException" then
              ret (inl (HError "ERROR in getAuthToken: Token request threw OAuth exception."))
            else ret (inr data))
           (fun err =>
              ret (inl (HError ("ERROR in getAuthToken: Unable to obtain token - "
                                  ++ Exn_toString err)))) ;;
    match r with
    | inl v => ret v
    | inr data => getAuthData w this data
    end.

(** ENTRY POINT *)
Definition route (ctx : OakContext) : Phase :=
  if String.eqb (search ctx) "" then Authorize
  else if String.eqb (JS.slice (search ctx) 1 5) "code" then CodeExchange
  else Unhandled.

Definition router (w : World) (this : Strategy) (ctx : OakContext)
  : Async HostValue :=
  match route ctx with
  | Authorize => authorize this ctx
  | CodeExchange => getAuthToken w this ctx
  | Unhandled => ret HUndefined
  end.

End GitHub.

(** ** [LocalStrategy] *)

Module Local.

Definition name : string := "local".

(** [_authorize] is the callback that the developer injects. *)
Record Strategy : Type := {
  usernameField : string;
  passwordField : string;
  _authorize : JSValue -> Async JSValue
}.

Definition constructor (usernamefield passwordfield : string)
  (authorize : JSValue -> Async JSValue) : Strategy :=
  {| usernameField := usernamefield;
     passwordField := passwordfield;
     _authorize := authorize |}.

Definition router (this : Strategy) (ctx : OakContext) : Async HostValue :=
  try_catch
    (userInfo <- body_value ctx ;;
     userInfo <- _authorize this userInfo ;;
     ret (HUserInfo userInfo))
    (fun _ =>
       ret (HError "ERROR in router: No Username or Password submitted for authorization")).

End Local.

(** ** The strategy template *)

(** The template that new strategies start from.  Its [constructURI] and
    [parseCode] are the methods above; what differs from
    [GitHubStrategy] is the handling of failures, which it leaves to the
    developer: it writes to the console and returns nothing. *)
Module Template.

(** What the template does to the outside: the effects of the strategies
    and the lines written with [console.log]. *)
Inductive LogArg : Type :=
| LogText (s : string)
| LogExn (e : Exn).

Inductive Output : Type :=
| Outbound (e : Effect)
| ConsoleLog (args : list LogArg).

Definition Async' (A : Type) : Type := (Completion A * list Output)%type.

Definition ret' {A} (a : A) : Async' A := (Return a, []).

Definition lift' {A} (c : Completion A) : Async' A := (c, []).

Definition perform' (o : Output) : Async' unit := (Return tt, [o]).

Definition bind' {A B} (m : Async' A) (k : A -> Async' B) : Async' B :=
  let '(c, outs) := m in
  match c with
  | Return a => let '(r, outs') := k a in (r, (outs ++ outs')%list)
  | Throw e => (Throw e, outs)
  end.

Definition try_catch' {A} (m : Async' A) (handler : Exn -> Async' A)
  : Async' A :=
  let '(c, outs) := m in
  match c with
  | Return a => (Return a, outs)
  | Throw e => let '(r, outs') := handler e in (r, (outs ++ outs')%list)
  end.

Notation "x <-- m ;; k" := (bind' m (fun x => k))
  (at level 61, m at next level, right associativity).
Notation "m ;;;; k" := (bind' m (fun _ => k))
  (at level 61, right associativity).

Definition do_fetch' (w : World) (req : Request) : Async' (Response w) :=
  perform' (Outbound (Fetch req)) ;;;; lift' (fetch w req).

Definition name : string := "github".

(** The fields that the constructor sets, the three URLs among them. *)
Record Strategy : Type := {
  options : Entries;
  authURL : string;
  tokenURL : string;
  authDataURL : string;
  uriFromParams : string
}.

Definition constructor (opts : Entries) : Completion Strategy :=
  if falsy (prop opts "client_id") || falsy (prop opts "redirect_uri")
     || falsy (prop opts "client_secret")
  then Throw (Error_ "Mssing Required arguments")
  else Return {| options := opts;
                 authURL := "https://github.com/login/oauth/authorize?";
                 tokenURL := "https://github.com/login/oauth/access_token?";
                 authDataURL := "https://api.github.com/user?";
                 uriFromParams := constructURI opts None |}.

(** STEP 1 *)
Definition authorize (this : Strategy) (ctx : OakContext) : Async' HostValue :=
  perform' (Outbound (Redirect (authURL this ++ uriFromParams this))) ;;;;
  ret' HUndefined.

(** The request of STEP 4.5, for the access token as the template
    literal prints it. *)
Definition profileRequest (access_token : string) : Request :=
  {| url := "https://api.github.com/user";
     method := None;
     headers := [ ("Authorization", "token " ++ access_token) ];
     body := None |}.

(** STEP 4 and 4.5.  The [catch] writes to the console; the function then
    ends without a [return]. *)
Definition getAuthData (w : World) (this : Strategy) (parsed : JSValue)
  : Async' HostValue :=
  access_token <-- lift' (get_prop parsed "access_token") ;;
  scope <-- lift' (get_prop parsed "scope") ;;
  token_type <-- lift' (get_prop parsed "token_type") ;;
  let tokenData :=
    [ ("access_token", access_token); ("scope", scope);
      ("token_type", token_type) ] in
  try_catch'
    (printed <-- lift' (ToString (lookup tokenData "access_token")) ;;
     data <-- do_fetch' w (profileRequest printed) ;;
     data <-- lift' (json w data) ;;
     id <-- lift' (get_prop data "id") ;;
     login <-- lift' (get_prop data "login") ;;
     name_ <-- lift' (get_prop data "name") ;;
     email <-- lift' (get_prop data "email") ;;
     ret' (HAuthData {| tokenData := tokenData;
                        userInfo := {| provider := name;
                                       providerUserId := id;
                                       displayName := Some login;
                                       name_familyName := Some name_;
                                       emails := Some [email] |} |}))
    (fun err =>
       perform' (ConsoleLog [ LogText "3.4 L.252 getAuthData fetch error";
                              LogExn err ]) ;;;;
       ret' HUndefined).

(** The request of STEP 3.5 for a given authorization code. *)
Definition tokenRequest (this : Strategy) (code : string) : Request :=
  let tokenOptions :=
    [ ("client_id", prop (options this) "client_id");
      ("client_secret", prop (options this) "client_secret");
      ("redirect_uri", prop (options this) "redirect_uri");
      ("code", Some code) ] in
  {| url := "https://github.com/login/oauth/access_token";
     method := Some "POST";
     headers := [ ("Accept", "application/json");
                  ("Content-Type", "application/json") ];
     body := Some (JSON_stringify tokenOptions) |}.

(** STEP 3 and 3.5.  An ["error"] in the query is only written to the
    console; [return console.log(...)] returns [undefined]; the [catch]
    is empty. *)
Definition getAuthToken (w : World) (this : Strategy) (ctx : OakContext)
  : Async' HostValue :=
  let OGURI := search ctx in
  (if JS.includes OGURI "error"
   then perform' (ConsoleLog [LogText "broke the code again"])
   else ret' tt) ;;;;
  code <-- lift' (authorization_code OGURI) ;;
  r <-- try_catch'
          (let options := tokenRequest this code in
           data <-- do_fetch' w options ;;
           data <-- lift' (json w data) ;;
           type <-- lift' (get_prop data "type") ;;
           if is_string type "oAuthException" then
             perform' (ConsoleLog
                         [LogText "token request threw oauth exception"]) ;;;;
             ret' (inl HUndefined)
           else ret' (inr data))
          (fun err => ret' (inl HUndefined)) ;;
  match r with
  | inl v => ret' v
  | inr data => getAuthData w this data
  end.

(** ENTRY POINT *)
Definition route (ctx : OakContext) : Phase :=
  if String.eqb (search ctx) "" then Authorize
  else if String.eqb (JS.slice (search ctx) 1 5) "code" then CodeExchange
  else Unhandled.

Definition router (w : World) (this : Strategy) (ctx : OakContext)
  : Async' HostValue :=
  match route ctx with
  | Authorize => authorize this ctx
  | CodeExchange => getAuthToken w this ctx
  | Unhandled => ret' HUndefined
  end.

(** The outbound effects among the outputs. *)
Definition outbound (outs : list Output) : list Effect :=
  flat_map (fun o => match o with
                     | Outbound e => [e]
                     | ConsoleLog _ => []
                     end) outs.

End Template.

(** A host value with the error values replaced by [undefined]. *)
Definition swallow (c : Completion HostValue) : Completion HostValue :=
  match c with
  | Return (HError _) => Return HUndefined
  | _ => c
  end.

(** ** Worlds for the examples *)

(** Every request is answered, with the given
    JSON. *)
Definition answering (data : JSValue) : World :=
  {| Response := unit;
     fetch := fun _ => Return tt;
     json := fun _ => Return data;
     Base64_fromString := fun s => s |}.

(** * Properties *)

(** ** Strings *)

Lemma append_assoc (s t u : string) : (s ++ t) ++ u = s ++ (t ++ u).
Proof. induction s as [|c s IH]; simpl; [reflexivity | now rewrite IH]. Qed.

Lemma append_nil_r (s : string) : s ++ "" = s.
Proof. induction s as [|c s IH]; simpl; [reflexivity | now rewrite IH]. Qed.

Lemma length_append (s t : string) :
  String.length (s ++ t) = String.length s + String.length t.
Proof. induction s as [|c s IH]; simpl; [reflexivity | now rewrite IH]. Qed.

Lemma substring_0_append (s t : string) :
  substring 0 (String.length s) (s ++ t) = s.
Proof.
  induction s as [|c s IH]; simpl.
  - now destruct t.
  - now rewrite IH.
Qed.

Lemma get_append_last (s t : string) :
  t <> "" ->
  get (String.length (s ++ t) - 1) (s ++ t) = get (String.length t - 1) t.
Proof.
  intros Ht. rewrite (append_correct2 s t (String.length t - 1)).
  f_equal. rewrite length_append. destruct t; [congruence | simpl; lia].
Qed.

Lemma get_0_append (s t : string) : s <> "" -> get 0 (s ++ t) = get 0 s.
Proof. destruct s; [congruence | reflexivity]. Qed.

Lemma prefix_1 (c x : ascii) (s : string) :
  prefix (String c "") (String x s) = Ascii.eqb c x.
Proof.
  simpl. destruct (ascii_dec c x) as [->|N].
  - rewrite Ascii.eqb_refl. now destruct s.
  - symmetry. now apply Ascii.eqb_neq.
Qed.

Lemma includes_1_cons (c x : ascii) (s : string) :
  JS.includes (String x s) (String c "")
  = Ascii.eqb c x || JS.includes s (String c "").
Proof.
  change (JS.includes (String x s) (String c ""))
    with (if prefix (String c "") (String x s) then true
          else JS.includes s (String c "")).
  rewrite prefix_1. now destruct (Ascii.eqb c x).
Qed.

Lemma includes_1_append (c : ascii) (s t : string) :
  JS.includes (s ++ t) (String c "")
  = JS.includes s (String c "") || JS.includes t (String c "").
Proof.
  induction s as [|x s IH].
  - reflexivity.
  - change (String x s ++ t) with (String x (s ++ t)).
    rewrite !includes_1_cons, IH. now rewrite orb_assoc.
Qed.

Lemma includes_1_get (c : ascii) (s : string) :
  JS.includes s (String c "") = false -> forall n, get n s <> Some c.
Proof.
  induction s as [|x s IH]; intros H n.
  - now destruct n.
  - rewrite includes_1_cons in H. apply orb_false_iff in H as [Hx Hs].
    destruct n as [|n]; simpl.
    + intros [= ->]. now rewrite Ascii.eqb_refl in Hx.
    + now apply IH.
Qed.

Lemma split_without_sep (c : ascii) (s : string) :
  JS.includes s (String c "") = false -> JS.split s c = [s].
Proof.
  induction s as [|x s IH]; intros H; [reflexivity|].
  rewrite includes_1_cons in H. apply orb_false_iff in H as [Hx Hs].
  simpl. rewrite Ascii.eqb_sym, Hx, (IH Hs). reflexivity.
Qed.

Lemma split_at_sep (c : ascii) (s t : string) :
  JS.includes s (String c "") = false ->
  JS.split (s ++ String c t) c = s :: JS.split t c.
Proof.
  induction s as [|x s IH]; intros H.
  - simpl. now rewrite Ascii.eqb_refl.
  - rewrite includes_1_cons in H. apply orb_false_iff in H as [Hx Hs].
    simpl. rewrite Ascii.eqb_sym, Hx, (IH Hs). reflexivity.
Qed.

(** ** [constructURI] *)

Lemma concat_amp_cons (x : string) (l : list string) :
  l <> [] -> String.concat "&" (x :: l) = x ++ "&" ++ String.concat "&" l.
Proof. destruct l; [congruence | reflexivity]. Qed.

(** The loop of [constructURI] leaves every kept entry followed by an
    ['&'] behind the text it started from. *)
Lemma constructURI_loop (skip : option (list string)) (options : Entries) :
  forall acc : string,
    fold_left
      (fun (paramString : string) (entry : string * string) =>
         let '(key, value) := entry in
         if skipped skip key then paramString
         else (paramString ++ (key ++ "=")) ++ (value ++ "&"))
      options acc
    = acc ++ match kept options skip with
             | [] => ""
             | l => String.concat "&" (map key_value l) ++ "&"
             end.
Proof.
  induction options as [|[k v] rest IH]; intros acc.
  - simpl. now rewrite append_nil_r.
  - cbn [fold_left kept filter fst]. destruct (skipped skip k) eqn:Hk; simpl negb; cbv iota.
    + apply IH.
    + rewrite IH. fold (kept rest skip).
      destruct (kept rest skip) as [|e l] eqn:Hm.
      * cbn. now rewrite append_nil_r, !append_assoc.
      * change (map key_value ((k, v) :: e :: l))
          with (key_value (k, v) :: map key_value (e :: l)).
        rewrite concat_amp_cons by (simpl; congruence).
        unfold key_value at 2. cbn [fst snd].
        now rewrite !append_assoc.
Qed.

Lemma slice_drop_last (s : string) (c : ascii) :
  JS.slice (s ++ String c "") 0 (-1) = s.
Proof.
  unfold JS.slice. rewrite length_append. cbn [String.length].
  replace (0 <? 0)%Z with false by reflexivity.
  replace (-1 <? 0)%Z with true by reflexivity.
  set (n := String.length s).
  replace (Z.min 0 (Z.of_nat (n + 1))) with 0%Z by lia.
  replace (Z.max (Z.of_nat (n + 1) + -1) 0) with (Z.of_nat n) by lia.
  replace (Z.to_nat 0) with 0 by reflexivity.
  replace (Z.to_nat (Z.max (Z.of_nat n - 0) 0)) with n by lia.
  apply substring_0_append.
Qed.

Lemma at_last (s : string) (c : ascii) :
  JS.at_ (s ++ String c "")
         (Z.of_nat (String.length (s ++ String c "")) - 1) = Some c.
Proof.
  unfold JS.at_. rewrite length_append. cbn [String.length].
  destruct (_ <? 0)%Z eqn:E; [apply Z.ltb_lt in E; lia|].
  replace (Z.to_nat (Z.of_nat (String.length s + 1) - 1))
    with (0 + String.length s) by lia.
  now rewrite <- append_correct2.
Qed.

(** [constructURI] is the kept entries, written [key=value] and joined by
    ['&']. *)
Lemma constructURI_join (options : Entries) (skip : option (list string)) :
  constructURI options skip
  = String.concat "&" (map key_value (kept options skip)).
Proof.
  unfold constructURI. rewrite constructURI_loop.
  destruct (kept options skip) as [|e l]; [reflexivity|].
  cbn [append].
  rewrite at_last, Ascii.eqb_refl. apply slice_drop_last.
Qed.

Lemma kept_keys (options : Entries) (skip : option (list string)) (k : string) :
  In k (map fst (kept options skip))
  <-> In k (map fst options) /\ skipped skip k = false.
Proof.
  unfold kept. rewrite !in_map_iff. split.
  - intros [[k' v] [<- H]]. apply filter_In in H as [H1 H2].
    split; [exists (k', v); auto | now apply negb_true_iff in H2].
  - intros [[[k' v] [<- H]] Hs]. exists (k', v). split; [reflexivity|].
    apply filter_In. split; [assumption | now apply negb_true_iff].
Qed.

Lemma kept_NoDup (options : Entries) (skip : option (list string)) :
  NoDup (map fst options) -> NoDup (map fst (kept options skip)).
Proof.
  induction options as [|[k v] rest IH]; intros H; [constructor|].
  inversion H as [|? ? Hn Hr]; subst. unfold kept. cbn [filter fst].
  destruct (negb (skipped skip k)); [|now apply IH].
  cbn [map fst]. constructor; [|now apply IH].
  intros Hin. apply Hn. now apply (kept_keys rest skip k).
Qed.

(** Entries have no ['&'] when their keys and values have none; they are
    never empty. *)

Lemma key_value_no_amp (kv : string * string) :
  no_amp (fst kv) -> no_amp (snd kv) -> no_amp (key_value kv).
Proof.
  unfold no_amp, key_value. intros Hk Hv.
  rewrite !includes_1_append, Hk, Hv. reflexivity.
Qed.

Lemma key_value_first (kv : string * string) :
  no_amp (fst kv) -> get 0 (key_value kv) <> Some "&"%char.
Proof.
  unfold key_value. intros Hk. destruct (fst kv) as [|c k] eqn:E.
  - cbn. congruence.
  - rewrite <- E in *. rewrite get_0_append by (rewrite E; congruence).
    now apply includes_1_get.
Qed.

Lemma key_value_last (kv : string * string) :
  no_amp (snd kv) ->
  get (String.length (key_value kv) - 1) (key_value kv) <> Some "&"%char.
Proof.
  unfold key_value. intros Hv. destruct (snd kv) as [|c v] eqn:E.
  - change ("=" ++ "") with "=".
    rewrite get_append_last by congruence. cbn. congruence.
  - rewrite <- E in *. rewrite <- append_assoc.
    rewrite get_append_last by (rewrite E; congruence).
    now apply includes_1_get.
Qed.

Lemma key_value_nonempty (kv : string * string) : key_value kv <> "".
Proof. unfold key_value. destruct (fst kv); discriminate. Qed.

Lemma concat_amp_nonempty (e : string) (l : list string) :
  e <> "" -> String.concat "&" (e :: l) <> "".
Proof. destruct l, e; cbn; congruence. Qed.

Lemma concat_amp_first (e : string) (l : list string) :
  e <> "" -> get 0 (String.concat "&" (e :: l)) = get 0 e.
Proof.
  intros He. destruct l; [reflexivity|].
  rewrite concat_amp_cons by congruence. now apply get_0_append.
Qed.

Lemma last_cons {A} (l : list A) :
  forall x d : A, last (x :: l) d = last l x.
Proof.
  induction l as [|y l IH]; intros x d; [reflexivity|].
  change (last (x :: y :: l) d) with (last (y :: l) d).
  now rewrite !IH.
Qed.

Lemma concat_amp_last (l : list string) :
  forall e, Forall (fun x => x <> "") (e :: l) ->
    let r := String.concat "&" (e :: l) in
    get (String.length r - 1) r
    = get (String.length (last l e) - 1) (last l e).
Proof.
  induction l as [|y l IH]; intros e HF; [reflexivity|].
  inversion HF as [|? ? He HF']; subst.
  cbv zeta. rewrite concat_amp_cons by congruence.
  rewrite <- append_assoc, get_append_last.
  - rewrite (IH y HF'). now rewrite (last_cons l y e).
  - inversion HF'; subst. now apply concat_amp_nonempty.
Qed.

Lemma split_concat_amp (l : list string) :
  forall e, Forall no_amp (e :: l) ->
    JS.split (String.concat "&" (e :: l)) "&" = e :: l.
Proof.
  induction l as [|y l IH]; intros e HF; inversion HF as [|? ? He HF']; subst.
  - now apply split_without_sep.
  - rewrite concat_amp_cons by congruence.
    change ("&" ++ String.concat "&" (y :: l))
      with (String "&" (String.concat "&" (y :: l))).
    rewrite split_at_sep by exact He. now rewrite IH.
Qed.

(** C5, as stated, fails: keys and values are copied verbatim, so a value
    that ends with ['&'] leaves a trailing ['&'] in the result (only the
    one separator that the loop appended is removed). *)
Lemma constructURI_trailing_amp :
  let m := [("a", "1&")] in
  let r := constructURI m None in
  NoDup (map fst m)
  /\ r = "a=1&"
  /\ JS.at_ r (Z.of_nat (String.length r) - 1) = Some "&"%char.
Proof.
  cbv zeta. split; [|split]; [|reflexivity|reflexivity].
  repeat constructor. simpl. tauto.
Qed.

(** C5 (amended): [constructURI m skip] is the entries of [m] whose key is
    not in [skip], in the order of [m], each written [key=value], joined
    by single ['&'] (the empty string when no entry is kept); every key of
    [m] that is not skipped is written once, a skipped key never.  Keys
    and values are copied verbatim: when none of the kept ones contains an
    ['&'], the result neither starts nor ends with ['&'] and its
    ['&']-separated segments are exactly the kept entries.
    [constructURI {}] is the empty string and [constructURI {a: "1"}] is
    ["a=1"]. *)
Theorem constructURI_encodes (m : Entries) (skip : option (list string)) :
  constructURI m skip = String.concat "&" (map key_value (kept m skip))
  /\ (NoDup (map fst m) ->
      forall k, In k (map fst m) -> skipped skip k = false ->
        count_occ string_dec (map fst (kept m skip)) k = 1)
  /\ (forall k, skipped skip k = true -> ~ In k (map fst (kept m skip)))
  /\ ((forall kv, In kv (kept m skip) -> no_amp (fst kv) /\ no_amp (snd kv)) ->
      let r := constructURI m skip in
      JS.at_ r 0 <> Some "&"%char
      /\ JS.at_ r (Z.of_nat (String.length r) - 1) <> Some "&"%char
      /\ (kept m skip <> [] -> JS.split r "&" = map key_value (kept m skip)))
  /\ constructURI [] skip = ""
  /\ constructURI [("a", "1")] None = "a=1".
Proof.
  split; [apply constructURI_join|].
  split.
  { intros ND k Hin Hs. apply NoDup_count_occ'.
    - now apply kept_NoDup.
    - now apply kept_keys. }
  split.
  { intros k Hs Hin. apply kept_keys in Hin as [_ Hs']. congruence. }
  split; [|split; reflexivity].
  intros Hamp. cbv zeta. rewrite constructURI_join.
  destruct (kept m skip) as [|e l] eqn:Hk.
  { repeat split; try discriminate. congruence. }
  assert (HF : Forall (fun x => x <> "") (map key_value (e :: l))).
  { apply Forall_forall. intros x Hx. apply in_map_iff in Hx as [kv [<- _]].
    apply key_value_nonempty. }
  assert (HA : Forall no_amp (map key_value (e :: l))).
  { apply Forall_forall. intros x Hx. apply in_map_iff in Hx as [kv [<- Hkv]].
    apply key_value_no_amp; now apply Hamp. }
  cbn [map] in *. split; [|split].
  - unfold JS.at_. cbn [Z.ltb Z.compare Z.to_nat].
    rewrite concat_amp_first by apply key_value_nonempty.
    apply key_value_first. apply Hamp. now left.
  - unfold JS.at_.
    set (r := String.concat "&" (key_value e :: map key_value l)).
    assert (r <> "") by apply concat_amp_nonempty, key_value_nonempty.
    destruct (_ <? 0)%Z eqn:E.
    + discriminate.
    + replace (Z.to_nat (Z.of_nat (String.length r) - 1))
        with (String.length r - 1) by lia.
      subst r. rewrite (concat_amp_last _ _ HF).
      destruct (exists_last (l := e :: l)) as [l' [kv Hl]]; [discriminate|].
      assert (Hlast : last (map key_value l) (key_value e) = key_value kv).
      { rewrite <- (last_cons (map key_value l) (key_value e) "").
        change (key_value e :: map key_value l) with (map key_value (e :: l)).
        rewrite Hl, map_app. apply last_last. }
      rewrite Hlast. apply key_value_last. apply Hamp.
      rewrite Hl. apply in_or_app. right. now left.
  - intros _. now apply split_concat_amp.
Qed.

Lemma constructURI_encodes_witness :
  let m := [("client_id", "abc"); ("client_secret", "s3"); ("scope", "user")] in
  let skip := Some ["client_secret"] in
  constructURI m skip = "client_id=abc&scope=user"
  /\ count_occ string_dec (map fst (kept m skip)) "scope" = 1
  /\ JS.split (constructURI m skip) "&" = ["client_id=abc"; "scope=user"].
Proof.
  intros m skip.
  destruct (constructURI_encodes m skip) as (H1 & H2 & _ & H4 & _).
  split; [exact H1|]. split.
  - apply H2.
    + repeat constructor; simpl; intuition discriminate.
    + simpl. tauto.
    + reflexivity.
  - apply H4.
    + intros kv [<-|[<-|[]]]; split; reflexivity.
    + discriminate.
Defined.

(** ** [parseCode] *)

Lemma decode_with_other (look : Lookup) (x : ascii) (rest : string) :
  x <> "%"%char ->
  decode_with look (String x rest) = String x (decode_with look rest).
Proof.
  intros Hx. simpl. apply Ascii.eqb_neq in Hx. now rewrite Hx.
Qed.

Lemma decode_with_percent (look : Lookup) (rest : string) :
  decode_with look (String "%" rest)
  = match next_code look rest with
    | Some c => String c (decode_with look (JS.drop 2 rest))
    | None => String "%" (decode_with look rest)
    end.
Proof.
  now destruct rest as [|a [|b rest]].
Qed.

Lemma hexd_percent : hexd "%" = false.
Proof. reflexivity. Qed.

Lemma good_first (look : Lookup) (a b : ascii) :
  good look -> hexd a = false -> look a b = None.
Proof.
  intros G Ha. destruct (look a b) eqn:E; [|reflexivity].
  apply G in E as (E & _). congruence.
Qed.

Lemma good_second (look : Lookup) (a b : ascii) :
  good look -> hexd b = false -> look a b = None.
Proof.
  intros G Hb. destruct (look a b) eqn:E; [|reflexivity].
  apply G in E as (_ & E & _). congruence.
Qed.

(** After a ['%'], the decoder writes a character that is no digit. *)
Lemma decode_with_percent_head (look : Lookup) (rest : string) :
  good look ->
  exists f t, decode_with look (String "%" rest) = String f t /\ hexd f = false.
Proof.
  intros G. rewrite decode_with_percent.
  destruct (next_code look rest) as [c|] eqn:E.
  - exists c, (decode_with look (JS.drop 2 rest)). split; [reflexivity|].
    destruct rest as [|a [|b r]]; try discriminate. now apply G in E.
  - eexists _, _. split; [reflexivity | apply hexd_percent].
Qed.

Lemma hexd_not_percent (a : ascii) : hexd a = true -> a <> "%"%char.
Proof. intros H ->. discriminate. Qed.

(** Decoding with one table does not disturb what another table finds. *)
Lemma next_code_decode_with (l1 l2 : Lookup) (s : string) :
  good l1 -> good l2 ->
  next_code l2 (decode_with l1 s) = next_code l2 s
  /\ (next_code l2 s <> None ->
      JS.drop 2 (decode_with l1 s) = decode_with l1 (JS.drop 2 s)).
Proof.
  intros G1 G2. destruct s as [|a [|b r]].
  - split; [reflexivity | now intros []].
  - split; [|now intros []]. simpl. now destruct (Ascii.eqb a "%").
  - cbn [next_code JS.drop]. destruct (l2 a b) as [c|] eqn:E.
    + apply G2 in E as Hab. destruct Hab as (Ha & Hb & _).
      rewrite decode_with_other by now apply hexd_not_percent.
      rewrite decode_with_other by now apply hexd_not_percent.
      cbn [next_code JS.drop]. now split.
    + split; [|congruence].
      destruct (ascii_dec a "%") as [->|Na].
      * destruct (decode_with_percent_head l1 (String b r) G1)
          as (f & t & -> & Hf).
        destruct t; [reflexivity|]. cbn. now apply good_first.
      * rewrite decode_with_other by assumption.
        destruct (ascii_dec b "%") as [->|Nb].
        -- destruct (decode_with_percent_head l1 r G1) as (f & t & -> & Hf).
           cbn. now apply good_second.
        -- rewrite decode_with_other by assumption. exact E.
Qed.

Lemma next_code_orelse (l1 l2 : Lookup) (s : string) :
  next_code (orelse l1 l2) s
  = match next_code l1 s with Some c => Some c | None => next_code l2 s end.
Proof. now destruct s as [|a [|b r]]. Qed.

Lemma length_drop (n : nat) (s : string) :
  String.length (JS.drop n s) <= String.length s.
Proof.
  revert s. induction n as [|n IH]; intros [|c s]; simpl; auto.
Qed.

(** Applying two tables one after the other is applying both at once. *)
Lemma decode_with_compose (l1 l2 : Lookup) :
  good l1 -> good l2 ->
  forall n s, String.length s <= n ->
    decode_with l2 (decode_with l1 s) = decode_with (orelse l1 l2) s.
Proof.
  intros G1 G2. induction n as [|n IH]; intros s Hn.
  { destruct s; [reflexivity | simpl in Hn; lia]. }
  destruct s as [|x rest]; [reflexivity|]. simpl in Hn.
  destruct (ascii_dec x "%") as [->|Nx].
  - rewrite (decode_with_percent l1), (decode_with_percent (orelse l1 l2)).
    rewrite next_code_orelse.
    destruct (next_code l1 rest) as [c1|] eqn:E1.
    + assert (c1 <> "%"%char).
      { destruct rest as [|a [|b r]]; try discriminate. now apply G1 in E1. }
      rewrite decode_with_other by assumption.
      rewrite IH; [reflexivity|]. pose proof (length_drop 2 rest). lia.
    + rewrite (decode_with_percent l2).
      destruct (next_code_decode_with l1 l2 rest G1 G2) as [-> Hd].
      destruct (next_code l2 rest) as [c2|] eqn:E2.
      * rewrite Hd by discriminate.
        rewrite IH; [reflexivity|]. pose proof (length_drop 2 rest). lia.
      * rewrite IH; [reflexivity | lia].
  - rewrite !decode_with_other by assumption.
    rewrite IH; [reflexivity | lia].
Qed.

Lemma decode_with_length (look : Lookup) :
  forall n s, String.length s <= n ->
    String.length (decode_with look s) <= String.length s.
Proof.
  induction n as [|n IH]; intros s Hn.
  { destruct s; [simpl; lia | simpl in Hn; lia]. }
  destruct s as [|x rest]; [simpl; lia|]. simpl in Hn.
  destruct (ascii_dec x "%") as [->|Nx].
  - rewrite decode_with_percent. destruct (next_code look rest).
    + cbn [String.length]. pose proof (length_drop 2 rest).
      specialize (IH (JS.drop 2 rest)). lia.
    + cbn [String.length]. specialize (IH rest). lia.
  - rewrite decode_with_other by assumption.
    cbn [String.length]. specialize (IH rest). lia.
Qed.

Lemma good_orelse (l1 l2 : Lookup) : good l1 -> good l2 -> good (orelse l1 l2).
Proof.
  intros G1 G2 a b c. unfold orelse.
  destruct (l1 a b) eqn:E; [intros [= <-]; now apply G1 | apply G2].
Qed.

Lemma decode_with_ext (l1 l2 : Lookup) :
  (forall a b, l1 a b = l2 a b) ->
  forall n s, String.length s <= n -> decode_with l1 s = decode_with l2 s.
Proof.
  intros E. induction n as [|n IH]; intros s Hn.
  { destruct s; [reflexivity | simpl in Hn; lia]. }
  destruct s as [|x rest]; [reflexivity|]. simpl in Hn.
  destruct (ascii_dec x "%") as [->|Nx].
  - rewrite !decode_with_percent.
    replace (next_code l2 rest) with (next_code l1 rest)
      by (destruct rest as [|a [|b r]]; cbn; auto).
    destruct (next_code l1 rest).
    + rewrite IH; [reflexivity|]. pose proof (length_drop 2 rest). lia.
    + rewrite IH; [reflexivity | lia].
  - rewrite !decode_with_other by assumption. rewrite IH; [reflexivity | lia].
Qed.

Lemma includes_cons (x : ascii) (s pat : string) :
  JS.includes (String x s) pat
  = prefix pat (String x s) || JS.includes s pat.
Proof.
  change (JS.includes (String x s) pat)
    with (if prefix pat (String x s) then true else JS.includes s pat).
  now destruct (prefix pat (String x s)).
Qed.

Lemma replace_eq (s pat rep : string) :
  JS.replace s pat rep
  = if prefix pat s then rep ++ JS.drop (String.length pat) s
    else match s with
         | EmptyString => EmptyString
         | String c s' => String c (JS.replace s' pat rep)
         end.
Proof. now destruct s. Qed.

Lemma prefix_cons (p x : ascii) (pat s : string) :
  prefix (String p pat) (String x s) = Ascii.eqb p x && prefix pat s.
Proof.
  cbn [prefix]. destruct (ascii_dec p x) as [->|N].
  - now rewrite Ascii.eqb_refl.
  - apply Ascii.eqb_neq in N. now rewrite N.
Qed.

Lemma prefix_nil (s : string) : prefix "" s = true.
Proof. now destruct s. Qed.

Lemma prefix_code (a b : ascii) (s : string) :
  prefix (String "%" (String a (String b ""))) s = true
  <-> exists r, s = String "%" (String a (String b r)).
Proof.
  split.
  - destruct s as [|x [|a' [|b' r]]]; try discriminate;
      rewrite ?prefix_cons, ?prefix_nil; cbn [prefix];
      rewrite ?andb_false_r; try discriminate.
    rewrite andb_true_r. intros H.
    apply andb_true_iff in H as [Hx H]. apply andb_true_iff in H as [Ha Hb].
    apply Ascii.eqb_eq in Hx, Ha, Hb. subst. now exists r.
  - intros [r ->]. now rewrite !prefix_cons, prefix_nil, !Ascii.eqb_refl.
Qed.

Section OneEntry.

Variables (pat rep : string) (a b c : ascii).
Hypothesis shape : code_entry pat rep a b c.

Let look : Lookup := entry_lookup pat rep.

Lemma entry_lookup_spec (a' b' : ascii) :
  look a' b' = if Ascii.eqb a a' && Ascii.eqb b b' then Some c else None.
Proof.
  destruct shape as (-> & -> & _). unfold look, entry_lookup. cbn.
  now destruct (Ascii.eqb a a'), (Ascii.eqb b b').
Qed.

Lemma entry_lookup_hit (a' b' c' : ascii) :
  look a' b' = Some c' -> a' = a /\ b' = b /\ c' = c.
Proof.
  rewrite entry_lookup_spec.
  destruct (Ascii.eqb a a') eqn:Ea; [|discriminate].
  destruct (Ascii.eqb b b') eqn:Eb; [|discriminate].
  apply Ascii.eqb_eq in Ea, Eb. intros [= <-]. auto.
Qed.

Lemma entry_lookup_good : good look.
Proof.
  intros a' b' c' H. apply entry_lookup_hit in H as (-> & -> & ->).
  destruct shape as (_ & _ & ? & ? & ? & ?). auto.
Qed.

Lemma next_code_prefix (rest : string) :
  next_code look rest = None <-> prefix pat (String "%" rest) = false.
Proof.
  assert (Hp : pat = String "%" (String a (String b ""))) by apply shape.
  split.
  - intros Hn. destruct (prefix pat (String "%" rest)) eqn:E; [|reflexivity].
    rewrite Hp in E. apply prefix_code in E as [r [= ->]].
    cbn in Hn. rewrite entry_lookup_spec, !Ascii.eqb_refl in Hn.
    discriminate.
  - intros Hn. destruct (next_code look rest) as [c'|] eqn:E; [|reflexivity].
    destruct rest as [|a' [|b' r]]; try discriminate.
    cbn in E. apply entry_lookup_hit in E as (-> & -> & _).
    rewrite Hp in Hn.
    assert (prefix (String "%" (String a (String b "")))
                   (String "%" (String a (String b r))) = true)
      by (apply prefix_code; now exists r).
    congruence.
Qed.

Lemma prefix_pat_percent (x : ascii) (s : string) :
  prefix pat (String x s) = true -> x = "%"%char.
Proof.
  assert (Hp : pat = String "%" (String a (String b ""))) by apply shape.
  rewrite Hp. intros H. now apply prefix_code in H as [r [= -> _]].
Qed.

(** Without an occurrence of the code, the one-entry decoder changes
    nothing. *)
Lemma decode_with_absent (s : string) :
  JS.includes s pat = false -> decode_with look s = s.
Proof.
  induction s as [|x rest IH]; [reflexivity|].
  rewrite includes_cons. intros H. apply orb_false_iff in H as [Hp Hi].
  destruct (ascii_dec x "%") as [->|Nx].
  - rewrite decode_with_percent.
    apply next_code_prefix in Hp. rewrite Hp. now rewrite IH.
  - rewrite decode_with_other by assumption. now rewrite IH.
Qed.

Lemma replace_head (s : string) :
  next_code look s = None -> next_code look (JS.replace s pat rep) = None.
Proof.
  assert (Hr : rep = String c "") by apply shape.
  assert (Hc : hexd c = false) by apply shape.
  pose proof entry_lookup_good as G.
  intros Hn.
  assert (R : forall t, prefix pat t = true ->
              exists t', JS.replace t pat rep = String c t').
  { intros t Ht. rewrite replace_eq, Ht, Hr. cbn [append]. eauto. }
  destruct (prefix pat s) eqn:Ps.
  { destruct (R s Ps) as [t' ->]. destruct t'; [reflexivity|].
    cbn. now apply good_first. }
  rewrite replace_eq, Ps.
  destruct s as [|y s]; [reflexivity|].
  destruct (prefix pat s) eqn:Ps2.
  { destruct (R s Ps2) as [t' ->]. cbn. now apply good_second. }
  rewrite replace_eq, Ps2.
  destruct s as [|z s]; [reflexivity|]. exact Hn.
Qed.

(** Replacing the first occurrence does not change what the one-entry
    decoder returns. *)
Lemma decode_with_replace (s : string) :
  JS.includes s pat = true ->
  decode_with look (JS.replace s pat rep) = decode_with look s.
Proof.
  assert (Hp : pat = String "%" (String a (String b ""))) by apply shape.
  assert (Hr : rep = String c "") by apply shape.
  assert (Hc : c <> "%"%char) by apply shape.
  induction s as [|x rest IH]; intros Hi.
  { rewrite Hp in Hi. discriminate. }
  rewrite includes_cons in Hi.
  rewrite replace_eq.
  destruct (prefix pat (String x rest)) eqn:Ps.
  - rewrite Hp in Ps. apply prefix_code in Ps as [r [= -> ->]].
    rewrite Hp, Hr. cbn [String.length JS.drop append].
    rewrite decode_with_other by assumption.
    rewrite decode_with_percent. cbn [next_code JS.drop].
    now rewrite entry_lookup_spec, !Ascii.eqb_refl.
  - simpl in Hi. specialize (IH Hi).
    destruct (ascii_dec x "%") as [->|Nx].
    + rewrite !decode_with_percent.
      apply next_code_prefix in Ps.
      rewrite Ps, (replace_head rest Ps). now rewrite IH.
    + rewrite !decode_with_other by assumption. now rewrite IH.
Qed.

Lemma replace_shorter (s : string) :
  JS.includes s pat = true ->
  String.length (JS.replace s pat rep) + 2 = String.length s.
Proof.
  assert (Hp : pat = String "%" (String a (String b ""))) by apply shape.
  assert (Hr : rep = String c "") by apply shape.
  induction s as [|x rest IH]; intros Hi.
  { rewrite Hp in Hi. discriminate. }
  rewrite includes_cons in Hi.
  rewrite replace_eq.
  destruct (prefix pat (String x rest)) eqn:Ps.
  - rewrite Hp in Ps. apply prefix_code in Ps as [r [= -> ->]].
    rewrite Hp, Hr. cbn. lia.
  - simpl in Hi. specialize (IH Hi). cbn [String.length]. lia.
Qed.

(** The [while] loop of one table entry stops within [length s] rounds
    and returns what the one-entry decoder returns. *)
Lemma replace_while_decode :
  forall fuel s, String.length s <= fuel ->
    replace_while fuel pat rep s = Some (decode_with look s).
Proof.
  induction fuel as [|fuel IH]; intros s Hs.
  - destruct s; [|simpl in Hs; lia].
    assert (Hp : pat = String "%" (String a (String b ""))) by apply shape.
    rewrite Hp. reflexivity.
  - cbn [replace_while]. destruct (JS.includes s pat) eqn:Hi.
    + pose proof (replace_shorter s Hi).
      rewrite IH by lia. now rewrite decode_with_replace.
    + now rewrite decode_with_absent.
Qed.

End OneEntry.

Lemma table_lookup_good (table : list (string * string)) :
  Forall entry_ok table -> good (table_lookup table).
Proof.
  induction 1 as [|[pat rep] rest (a & b & c & Hs) _ IH].
  - intros a b c [=].
  - cbn [table_lookup]. apply good_orelse; [|exact IH].
    exact (entry_lookup_good pat rep a b c Hs).
Qed.

(** The [for] loop of [parseCode], over any table of well-shaped entries:
    [length s] rounds of fuel are enough, and the result is the one-pass
    decoding with the whole table. *)
Lemma parseCode_loop_decode (table : list (string * string)) :
  Forall entry_ok table ->
  forall fuel s, String.length s <= fuel ->
    parseCode_loop fuel table s = Some (decode_with (table_lookup table) s).
Proof.
  induction 1 as [|[pat rep] rest (a & b & c & Hs) Hrest IH]; intros fuel s Hf.
  - cbn. f_equal. clear Hf. induction s as [|x s IHs]; [reflexivity|].
    cbn. rewrite <- IHs. destruct (Ascii.eqb x "%"); [|reflexivity].
    now destruct s as [|? [|? ?]].
  - cbn [parseCode_loop table_lookup fst snd] in *.
    rewrite (replace_while_decode pat rep a b c Hs fuel s Hf).
    rewrite IH.
    + f_equal. apply (decode_with_compose _ _
                        (entry_lookup_good pat rep a b c Hs)
                        (table_lookup_good rest Hrest)
                        (String.length s)). lia.
    + pose proof (decode_with_length (entry_lookup pat rep)
                    (String.length s) s (le_n _)). lia.
Qed.

Lemma replacements_ok : Forall entry_ok replacements.
Proof.
  repeat constructor;
    (eexists _, _, _; repeat split; try reflexivity; discriminate).
Qed.

Lemma parseCode_fuel_table (fuel : nat) (s : string) :
  String.length s <= fuel ->
  parseCode_fuel fuel s = Some (decode_with (table_lookup replacements) s).
Proof. apply (parseCode_loop_decode replacements replacements_ok). Qed.

(** A table of [parseCode] and a list of reserved characters that hold
    the same entries in the same order decide alike. *)
Lemma table_lookup_reserved (table : list (string * string))
  (triples : list (ascii * ascii * ascii)) :
  Forall2 (fun e t => code_entry (fst e) (snd e)
                        (fst (fst t)) (snd (fst t)) (snd t))
          table triples ->
  forall a b, table_lookup table a b = reserved_lookup triples a b.
Proof.
  induction 1 as [|[pat rep] [[x y] c] table triples Hs _ IH]; intros a b;
    [reflexivity|].
  cbn [fst snd] in Hs. cbn [table_lookup reserved_lookup]. unfold orelse.
  rewrite (entry_lookup_spec pat rep x y c Hs a b), IH.
  now destruct (Ascii.eqb x a && Ascii.eqb y b).
Qed.

Lemma replacements_reserved (a b : ascii) :
  table_lookup replacements a b = reserved_lookup reserved_characters a b.
Proof.
  apply table_lookup_reserved.
  repeat constructor; discriminate.
Qed.

Lemma decode_table_spec (s : string) :
  decode_with (table_lookup replacements) s = decode_spec s.
Proof.
  unfold decode_spec.
  apply (decode_with_ext _ _ replacements_reserved (String.length s)).
  apply le_n.
Qed.

Lemma parseCode_fuel_total (fuel : nat) (s : string) :
  String.length s <= fuel -> parseCode_fuel fuel s = Some (decode_spec s).
Proof.
  intros H. now rewrite parseCode_fuel_table, decode_table_spec.
Qed.

Lemma parseCode_decode_spec (s : string) : parseCode s = decode_spec s.
Proof. unfold parseCode. now rewrite parseCode_fuel_total. Qed.

Lemma parseCode_table (s : string) :
  parseCode s = decode_with (table_lookup replacements) s.
Proof. now rewrite parseCode_decode_spec, decode_table_spec. Qed.

(** No code that the table knows is left in what the decoder returns. *)
Lemma decode_with_complete (look : Lookup) (a b c : ascii) :
  good look -> look a b = Some c ->
  forall n s, String.length s <= n ->
    JS.includes (decode_with look s) (String "%" (String a (String b "")))
    = false.
Proof.
  intros G Hab. induction n as [|n IH]; intros s Hn.
  { destruct s; [reflexivity | simpl in Hn; lia]. }
  destruct s as [|x rest]; [reflexivity|]. simpl in Hn.
  destruct (ascii_dec x "%") as [->|Nx].
  - rewrite decode_with_percent.
    destruct (next_code look rest) as [c'|] eqn:E.
    + rewrite includes_cons, prefix_cons.
      assert (c' <> "%"%char).
      { destruct rest as [|a' [|b' r]]; try discriminate. now apply G in E. }
      replace (Ascii.eqb "%" c') with false
        by (symmetry; apply Ascii.eqb_neq; congruence).
      apply IH. pose proof (length_drop 2 rest). lia.
    + rewrite includes_cons, IH by lia. rewrite orb_false_r.
      destruct (prefix _ _) eqn:P; [|reflexivity].
      apply prefix_code in P as [r [= P]].
      destruct (next_code_decode_with look look rest G G) as [Hh _].
      rewrite P in Hh. cbn in Hh. congruence.
  - rewrite decode_with_other by assumption.
    rewrite includes_cons, prefix_cons.
    replace (Ascii.eqb "%" x) with false
      by (symmetry; apply Ascii.eqb_neq; congruence).
    apply IH. lia.
Qed.

(** C6: [parseCode] terminates on every input (the input's length bounds
    the rounds of every [while] loop, and more fuel does not change the
    result).  It returns the one-pass decoding [decode_spec], which is
    written from the ten reserved characters themselves, not from the
    table of [parseCode]: [%24 %26 %2B %2C %2F %3A %3B %3D %3F %40]
    become [$ & + , / : ; = ? @], each the character that its code
    denotes, and every other character and every other percent-encoding
    is copied.  None of the ten codes occurs in the result; a string
    without any of them is returned as it is;
    [parseCode "a%3Db%26c" = "a=b&c"]; all ten codes in a row decode to
    the ten characters; other and lower-case encodings stay. *)
Theorem parseCode_decodes (raw : string) :
  (exists decoded,
      forall fuel, String.length raw <= fuel ->
        parseCode_fuel fuel raw = Some decoded)
  /\ parseCode raw = decode_spec raw
  /\ Forall (fun e => JS.includes (parseCode raw) (fst e) = false) replacements
  /\ (forallb (fun e => negb (JS.includes raw (fst e))) replacements = true ->
      parseCode raw = raw)
  /\ parseCode "a%3Db%26c" = "a=b&c"
  /\ Forall (fun code => JS.includes (parseCode raw) code = false)
        [ "%24"; "%26"; "%2B"; "%2C"; "%2F"; "%3A"; "%3B"; "%3D"; "%3F";
          "%40" ]
  /\ (forallb (fun code => negb (JS.includes raw code))
        [ "%24"; "%26"; "%2B"; "%2C"; "%2F"; "%3A"; "%3B"; "%3D"; "%3F";
          "%40" ] = true ->
      parseCode raw = raw)
  /\ parseCode "%24%26%2B%2C%2F%3A%3B%3D%3F%40" = "$&+,/:;=?@"
  /\ parseCode "%25%2b%3a%7E%41%2" = "%25%2b%3a%7E%41%2"
  /\ Forall (fun t =>
               hexd (fst (fst t)) = true /\ hexd (snd (fst t)) = true
               /\ nat_of_ascii (snd t)
                  = 16 * hex_value (fst (fst t)) + hex_value (snd (fst t)))
        reserved_characters.
Proof.
  assert (L : forall table fuel,
             forallb (fun e => negb (JS.includes raw (fst e))) table = true ->
             parseCode_loop fuel table raw = Some raw).
  { induction table as [|[pat rep] rest IH]; intros fuel Ht; [reflexivity|].
    cbn [forallb fst] in Ht. apply andb_true_iff in Ht as [Hp Hr].
    apply negb_true_iff in Hp. cbn [parseCode_loop].
    destruct fuel; cbn [replace_while]; rewrite Hp; now apply IH. }
  assert (F : Forall (fun e => JS.includes (parseCode raw) (fst e) = false)
                replacements).
  { rewrite parseCode_table.
    pose proof (table_lookup_good replacements replacements_ok) as G.
    repeat constructor;
      (eapply (decode_with_complete _ _ _ _ G); [reflexivity | apply le_n]). }
  assert (U : forallb (fun e => negb (JS.includes raw (fst e))) replacements
              = true -> parseCode raw = raw).
  { intros H. unfold parseCode, parseCode_fuel. now rewrite L. }
  split; [|split; [|split; [|split; [|split; [|split; [|split; [|split;
    [|split]]]]]]]].
  - exists (decode_spec raw). intros fuel. apply parseCode_fuel_total.
  - apply parseCode_decode_spec.
  - exact F.
  - exact U.
  - reflexivity.
  - change [ "%24"; "%26"; "%2B"; "%2C"; "%2F"; "%3A"; "%3B"; "%3D"; "%3F";
             "%40" ] with (map fst replacements).
    apply Forall_map. exact F.
  - intros H. apply U. exact H.
  - reflexivity.
  - reflexivity.
  - repeat constructor.
Qed.

Lemma parseCode_decodes_witness :
  parseCode "%7Eabc%2b" = "%7Eabc%2b".
Proof.
  destruct (parseCode_decodes "%7Eabc%2b") as (_ & _ & _ & _ & _ & _ & H & _).
  apply H. reflexivity.
Defined.

(** ** Construction and the redirect of STEP 1 *)

Lemma falsy_iff (opts : Entries) (key : string) :
  falsy (prop opts key) = true <-> missing_or_empty opts key.
Proof.
  unfold missing_or_empty, falsy. destruct (prop opts key) as [s|].
  - rewrite String.eqb_eq. split; [intros ->; now right | now intros [[=]|[= ->]]].
  - split; auto.
Qed.

Lemma Spotify_constructor_inv (opts : Entries) (this : Spotify.Strategy) :
  Spotify.constructor opts = Return this ->
  Spotify.options this = opts
  /\ Spotify.uriFromParams this = constructURI opts (Some ["client_secret"]).
Proof.
  unfold Spotify.constructor. destruct (_ || _); [discriminate|].
  intros [= <-]. auto.
Qed.

Lemma GitHub_constructor_inv (opts : Entries) (this : GitHub.Strategy) :
  GitHub.constructor opts = Return this ->
  GitHub.options this = opts
  /\ GitHub.uriFromParams this = constructURI opts None.
Proof.
  unfold GitHub.constructor. destruct (_ || _); [discriminate|].
  intros [= <-]. auto.
Qed.

(** For [SpotifyStrategy], a request without query string is answered by
    one redirect to the authorize URL followed by the options without
    [client_secret]. *)
Lemma Spotify_redirect (w : World) (opts : Entries) (this : Spotify.Strategy)
  (ctx : OakContext) :
  Spotify.constructor opts = Return this ->
  search ctx = "" ->
  Spotify.router w this ctx
  = (Return HUndefined,
     [Redirect (Spotify.authURL ++ constructURI opts (Some ["client_secret"]))]).
Proof.
  intros Hc Hs. apply Spotify_constructor_inv in Hc as [_ Hu].
  unfold Spotify.router, Spotify.route. rewrite Hs. cbn.
  unfold Spotify.authorize. now rewrite Hu.
Qed.

(** Two option bags that agree outside [client_secret] give the same
    redirect. *)
Lemma Spotify_redirect_ignores_client_secret (opts opts' : Entries) :
  kept opts (Some ["client_secret"]) = kept opts' (Some ["client_secret"]) ->
  constructURI opts (Some ["client_secret"])
  = constructURI opts' (Some ["client_secret"]).
Proof. intros H. now rewrite !constructURI_join, H. Qed.

(** For [GitHubStrategy] the redirect carries every option. *)
Lemma GitHub_redirect (w : World) (opts : Entries) (this : GitHub.Strategy)
  (ctx : OakContext) :
  GitHub.constructor opts = Return this ->
  search ctx = "" ->
  GitHub.router w this ctx
  = (Return HUndefined, [Redirect (GitHub.authURL ++ constructURI opts None)]).
Proof.
  intros Hc Hs. apply GitHub_constructor_inv in Hc as [_ Hu].
  unfold GitHub.router, GitHub.route. rewrite Hs. cbn.
  unfold GitHub.authorize. now rewrite Hu.
Qed.

(** C1 at a failing input: a [GitHubStrategy] built with the three
    required options answers a request without query string with one
    redirect whose URL contains the value of [client_secret]; changing
    only [client_secret] changes the URL. *)
Theorem GitHub_redirect_carries_client_secret (w : World) :
  let opts secret :=
    [ ("client_id", "id"); ("redirect_uri", "http://localhost/cb");
      ("client_secret", secret) ] in
  let ctx := {| search := ""; body_value := ret VUndefined |} in
  let location secret :=
    "https://github.com/login/oauth/authorize?client_id=id&redirect_uri=http://localhost/cb&client_secret="
      ++ secret in
  (exists this,
      GitHub.constructor (opts "s3cr3t") = Return this
      /\ GitHub.router w this ctx
         = (Return HUndefined, [Redirect (location "s3cr3t")]))
  /\ (exists this,
         GitHub.constructor (opts "other") = Return this
         /\ GitHub.router w this ctx
            = (Return HUndefined, [Redirect (location "other")]))
  /\ JS.includes (location "s3cr3t") "s3cr3t" = true
  /\ location "s3cr3t" <> location "other".
Proof.
  cbv zeta. repeat split; try discriminate.
  - eexists. split; reflexivity.
  - eexists. split; reflexivity.
Qed.

(** ** C10: what the constructors require *)

(** C10, as stated, fails for [SpotifyStrategy]: without [state] the
    constructor throws although the three mandatory options are there. *)
Lemma Spotify_constructor_requires_state :
  let opts := [ ("client_id", "id"); ("client_secret", "s3cr3t");
                ("redirect_uri", "http://localhost/cb") ] in
  ~ (missing_or_empty opts "client_id" \/ missing_or_empty opts "client_secret"
     \/ missing_or_empty opts "redirect_uri")
  /\ Spotify.constructor opts
     = Throw (Error_ "ERROR in SpotifyStrategy constructor: Missing required arguments").
Proof.
  cbv zeta. split; [|reflexivity].
  unfold missing_or_empty. cbn. intuition discriminate.
Qed.

(** C10 (amended): [GitHubStrategy]'s constructor throws exactly when
    [client_id], [redirect_uri] or [client_secret] is missing or empty;
    [SpotifyStrategy]'s throws exactly when one of these or [state] is
    missing or empty.  No other key ([scope], [response_type], ...) is
    looked at. *)
Theorem constructor_throws_iff (opts : Entries) :
  ((exists e, GitHub.constructor opts = Throw e)
   <-> missing_or_empty opts "client_id" \/ missing_or_empty opts "redirect_uri"
       \/ missing_or_empty opts "client_secret")
  /\ ((exists e, Spotify.constructor opts = Throw e)
      <-> missing_or_empty opts "client_id" \/ missing_or_empty opts "redirect_uri"
          \/ missing_or_empty opts "state"
          \/ missing_or_empty opts "client_secret").
Proof.
  rewrite <- !falsy_iff.
  unfold GitHub.constructor, Spotify.constructor. split.
  - destruct (falsy (prop opts "client_id")), (falsy (prop opts "redirect_uri")),
      (falsy (prop opts "client_secret")); cbn;
      (split; [intros [e He]; try discriminate; auto
              | intros H; try (now eexists); intuition discriminate]).
  - destruct (falsy (prop opts "client_id")), (falsy (prop opts "redirect_uri")),
      (falsy (prop opts "state")), (falsy (prop opts "client_secret")); cbn;
      (split; [intros [e He]; try discriminate; auto
              | intros H; try (now eexists); intuition discriminate]).
Qed.

(** ** Phase dispatch *)

Lemma slice_1_5 (s : string) : JS.slice s 1 5 = substring 1 4 s.
Proof.
  destruct s as [|c0 [|c1 [|c2 [|c3 [|c4 rest]]]]]; try reflexivity.
  unfold JS.slice.
  set (len := Z.of_nat _).
  assert (5 <= len)%Z by (unfold len; cbn [String.length]; lia).
  replace (1 <? 0)%Z with false by reflexivity.
  replace (5 <? 0)%Z with false by reflexivity.
  rewrite !Z.min_l by lia. reflexivity.
Qed.

Lemma slice_1_5_code (s : string) :
  JS.slice s 1 5 = "code" <-> exists c rest, s = String c ("code" ++ rest).
Proof.
  rewrite slice_1_5. split.
  - destruct s as [|c0 [|c1 [|c2 [|c3 [|c4 rest]]]]]; try discriminate.
    cbn. destruct rest; intros [= -> -> -> ->]; eauto.
  - intros (c & rest & ->). cbn. now destruct rest.
Qed.

(** C2, as stated, fails: the test looks at four characters, not at
    ["code="]. *)
Lemma route_ignores_fifth_character :
  let ctx := {| search := "?codex=1"; body_value := ret VUndefined |} in
  substring 1 5 (search ctx) <> "code="
  /\ Spotify.route ctx = CodeExchange
  /\ GitHub.route ctx = CodeExchange.
Proof. cbv zeta. repeat split. discriminate. Qed.

(** C2 (amended): a request without query string is answered by the
    redirect of STEP 1 and nothing else; otherwise the code exchange runs
    exactly when the four characters that follow the first character of
    the query string are ["code"] (whatever comes fifth); every other
    request is left unhandled: no effect, [undefined] returned.  Both
    strategies dispatch alike. *)
Theorem router_dispatch (w : World) (ctx : OakContext) :
  Spotify.route ctx = GitHub.route ctx
  /\ (Spotify.route ctx = Authorize <-> search ctx = "")
  /\ (Spotify.route ctx = CodeExchange
      <-> exists c rest, search ctx = String c ("code" ++ rest))
  /\ (Spotify.route ctx = Unhandled
      <-> search ctx <> "" /\ JS.slice (search ctx) 1 5 <> "code")
  /\ (forall this,
        Spotify.router w this ctx
        = match Spotify.route ctx with
          | Authorize =>
              (Return HUndefined,
               [Redirect (Spotify.authURL ++ Spotify.uriFromParams this)])
          | CodeExchange => Spotify.getAuthToken w this ctx
          | Unhandled => (Return HUndefined, [])
          end)
  /\ (forall this,
        GitHub.router w this ctx
        = match GitHub.route ctx with
          | Authorize =>
              (Return HUndefined,
               [Redirect (GitHub.authURL ++ GitHub.uriFromParams this)])
          | CodeExchange => GitHub.getAuthToken w this ctx
          | Unhandled => (Return HUndefined, [])
          end).
Proof.
  split; [reflexivity|].
  rewrite <- slice_1_5_code.
  unfold Spotify.router, GitHub.router, GitHub.route, Spotify.route.
  destruct (String.eqb (search ctx) "") eqn:E1.
  - apply String.eqb_eq in E1. rewrite E1. cbn.
    repeat split; try discriminate; try reflexivity; intuition congruence.
  - apply String.eqb_neq in E1.
    destruct (String.eqb (JS.slice (search ctx) 1 5) "code") eqn:E2.
    + apply String.eqb_eq in E2.
      repeat split; try discriminate; try reflexivity; intuition congruence.
    + apply String.eqb_neq in E2.
      repeat split; try discriminate; try reflexivity; intuition congruence.
Qed.

(** ** Code exchange *)

Lemma split_head (sep : ascii) (s : string) :
  exists t, JS.split s sep = before_first sep s :: t.
Proof.
  induction s as [|c s [t IH]]; [now exists []|].
  cbn. destruct (Ascii.eqb c sep); [eauto|]. rewrite IH. eauto.
Qed.

Lemma split_second (sep : ascii) (s : string) :
  nth_error (JS.split s sep) 1
  = if JS.includes s (String sep "")
    then Some (before_first sep (after_first sep s))
    else None.
Proof.
  induction s as [|c s IH]; [reflexivity|].
  rewrite includes_1_cons, Ascii.eqb_sym. cbn [JS.split after_first].
  destruct (Ascii.eqb c sep); cbn [orb].
  - destruct (split_head sep s) as [t ->]. reflexivity.
  - destruct (split_head sep s) as [t Ht]. rewrite Ht in *. exact IH.
Qed.

(** What [getAuthToken] takes for the authorization code: the text
    between the first ['='] and the next ['='] or ['&'], decoded; without
    any ['='] the extraction throws. *)
Lemma authorization_code_eq (query : string) :
  authorization_code query
  = if JS.includes query "="
    then Return (parseCode (before_first "&"
                              (before_first "=" (after_first "=" query))))
    else Throw (TypeError "Cannot read properties of undefined (reading 'split')").
Proof.
  unfold authorization_code. rewrite split_second.
  destruct (JS.includes query "="); [|reflexivity].
  now destruct (split_head "&" (before_first "=" (after_first "=" query)))
    as [t ->].
Qed.

Lemma before_first_twice (s : string) :
  JS.includes (before_first "&" s) "=" = false ->
  before_first "&" (before_first "=" s) = before_first "&" s.
Proof.
  induction s as [|c s IH]; [reflexivity|]. cbn [before_first].
  destruct (Ascii.eqb c "&") eqn:E1.
  - intros _. destruct (Ascii.eqb c "=") eqn:E2; [reflexivity|].
    cbn [before_first]. now rewrite E1.
  - rewrite includes_1_cons. intros H. apply orb_false_iff in H as [H1 H2].
    rewrite Ascii.eqb_sym, H1. cbn [before_first]. now rewrite E1, IH.
Qed.

(** ** Effects of composed computations *)

Lemma snd_bind {A B} (m : Async A) (k : A -> Async B) :
  snd (bind m k)
  = (snd m ++ match fst m with
              | Return a => snd (k a)
              | Throw _ => []
              end)%list.
Proof.
  destruct m as [[a|e] effs]; cbn.
  - now destruct (k a).
  - now rewrite app_nil_r.
Qed.

Lemma snd_try_catch {A} (m : Async A) (handler : Exn -> Async A) :
  snd (try_catch m handler)
  = (snd m ++ match fst m with
              | Return _ => []
              | Throw e => snd (handler e)
              end)%list.
Proof.
  destruct m as [[a|e] effs]; cbn.
  - now rewrite app_nil_r.
  - now destruct (handler e).
Qed.

Lemma bind_lift_return {A B} (a : A) (k : A -> Async B) :
  bind (lift (Return a)) k = k a.
Proof. unfold bind, lift. now destruct (k a). Qed.

Lemma snd_do_fetch (w : World) (req : Request) :
  snd (do_fetch w req) = [Fetch req].
Proof. unfold do_fetch. now destruct (fetch w req). Qed.

Lemma before_first_append (sep : ascii) (v t : string) :
  JS.includes v (String sep "") = false ->
  before_first sep (v ++ t) = v ++ before_first sep t.
Proof.
  induction v as [|c v IH]; [reflexivity|].
  rewrite includes_1_cons. intros H. apply orb_false_iff in H as [H1 H2].
  cbn. rewrite Ascii.eqb_sym, H1. now rewrite IH.
Qed.

Lemma after_first_append (sep : ascii) (v t : string) :
  JS.includes v (String sep "") = false ->
  after_first sep (v ++ String sep t) = t.
Proof.
  induction v as [|c v IH].
  - intros _. cbn. now rewrite Ascii.eqb_refl.
  - rewrite includes_1_cons. intros H. apply orb_false_iff in H as [H1 H2].
    cbn. rewrite Ascii.eqb_sym, H1. now apply IH.
Qed.

(** C7: a callback query that contains ["error"] anywhere makes
    [getAuthToken] return the error value at once, in both strategies: no
    effect is performed, so the token endpoint is not contacted.  The
    entry point does not contact it for such a query either. *)
Theorem getAuthToken_error_short_circuit (w : World)
  (sthis : Spotify.Strategy) (gthis : GitHub.Strategy) (ctx : OakContext) :
  JS.includes (search ctx) "error" = true ->
  Spotify.getAuthToken w sthis ctx
  = (Return (HError "ERROR in getAuthToken: Received an error from auth token code request."),
     [])
  /\ GitHub.getAuthToken w gthis ctx
     = (Return (HError "ERROR in getAuthToken: Received an error from auth token code request."),
        [])
  /\ existsb is_fetch (snd (Spotify.getAuthToken w sthis ctx)) = false
  /\ existsb is_fetch (snd (GitHub.getAuthToken w gthis ctx)) = false
  /\ existsb is_fetch (snd (Spotify.router w sthis ctx)) = false
  /\ existsb is_fetch (snd (GitHub.router w gthis ctx)) = false.
Proof.
  intros H.
  assert (HS : Spotify.getAuthToken w sthis ctx
               = (Return (HError "ERROR in getAuthToken: Received an error from auth token code request."),
                  []))
    by (unfold Spotify.getAuthToken; now rewrite H).
  assert (HG : GitHub.getAuthToken w gthis ctx
               = (Return (HError "ERROR in getAuthToken: Received an error from auth token code request."),
                  []))
    by (unfold GitHub.getAuthToken; now rewrite H).
  repeat split; try assumption; try (now rewrite HS); try (now rewrite HG).
  - unfold Spotify.router. destruct (Spotify.route ctx); [reflexivity| |reflexivity].
    now rewrite HS.
  - unfold GitHub.router. destruct (GitHub.route ctx); [reflexivity| |reflexivity].
    now rewrite HG.
Qed.

Lemma getAuthToken_error_short_circuit_witness :
  existsb is_fetch
    (snd (Spotify.getAuthToken (answering VNull)
            {| Spotify.options := []; Spotify.uriFromParams := "" |}
            {| search := "?code=abc&error=access_denied";
               body_value := ret VUndefined |})) = false.
Proof.
  apply (getAuthToken_error_short_circuit (answering VNull)
           {| Spotify.options := []; Spotify.uriFromParams := "" |}
           {| GitHub.options := []; GitHub.uriFromParams := "" |}
           {| search := "?code=abc&error=access_denied";
              body_value := ret VUndefined |}).
  reflexivity.
Defined.

(** C3 at a failing input: the query ["?code"] is dispatched to the code
    exchange, which throws (the promise of [router] is rejected) instead
    of returning an error value. *)
Theorem getAuthToken_throws_without_equals (w : World)
  (sthis : Spotify.Strategy) (gthis : GitHub.Strategy) :
  let ctx := {| search := "?code"; body_value := ret VUndefined |} in
  Spotify.route ctx = CodeExchange
  /\ Spotify.router w sthis ctx
     = (Throw (TypeError "Cannot read properties of undefined (reading 'split')"),
        [])
  /\ GitHub.router w gthis ctx
     = (Throw (TypeError "Cannot read properties of undefined (reading 'split')"),
        []).
Proof. cbv zeta. repeat split. Qed.

(** The same for every query that has neither ["error"] nor ['=']. *)
Lemma getAuthToken_throws_iff_no_equals (w : World)
  (sthis : Spotify.Strategy) (gthis : GitHub.Strategy) (ctx : OakContext) :
  JS.includes (search ctx) "error" = false ->
  JS.includes (search ctx) "=" = false ->
  Spotify.getAuthToken w sthis ctx
  = (Throw (TypeError "Cannot read properties of undefined (reading 'split')"),
     [])
  /\ GitHub.getAuthToken w gthis ctx
     = (Throw (TypeError "Cannot read properties of undefined (reading 'split')"),
        []).
Proof.
  intros He Hq. unfold Spotify.getAuthToken, GitHub.getAuthToken.
  rewrite He, authorization_code_eq, Hq. split; reflexivity.
Qed.

(** ** Profile fetch *)

Lemma get_prop_field (v : JSValue) (key : string) :
  v <> VUndefined -> v <> VNull -> get_prop v key = Return (field v key).
Proof. destruct v; intros; congruence || reflexivity. Qed.

Lemma lookup_without_key (props : list (string * JSValue)) (key : string) :
  has_key props key = false -> lookup props key = VUndefined.
Proof.
  induction props as [|[k v] rest IH]; [reflexivity|].
  cbn. destruct (String.eqb k key); [discriminate | exact IH].
Qed.

(** The profile phase as a case analysis: the token fields are printed
    for the request, which fails without any request when one of them
    cannot be printed; then one request, and an error value or the
    [AuthData]. *)
Lemma Spotify_getAuthData_eq (w : World) (this : Spotify.Strategy)
  (parsed : JSValue) :
  parsed <> VUndefined -> parsed <> VNull ->
  let tokenData := [ ("access_token", field parsed "access_token");
                     ("token_type", field parsed "token_type");
                     ("scope", field parsed "scope");
                     ("expires_in", field parsed "expires_in");
                     ("refresh_token", field parsed "refresh_token") ] in
  let failed e :=
    HError ("ERROR in getAuthData: Unable to obtain auth data - "
              ++ Exn_toString e) in
  Spotify.getAuthData w this parsed
  = match to_strings tokenData with
    | Throw e => (Return (failed e), [])
    | Return authOptions =>
        (match fetched_json w (Spotify.profileRequest authOptions) with
         | Return data =>
             match get_prop data "id" with
             | Return id =>
                 Return (HAuthData
                           {| tokenData := tokenData;
                              userInfo := {| provider := "spotify";
                                             providerUserId := id;
                                             displayName := None;
                                             name_familyName := None;
                                             emails := None |} |})
             | Throw e => Return (failed e)
             end
         | Throw e => Return (failed e)
         end,
         [Fetch (Spotify.profileRequest authOptions)])
    end.
Proof.
  intros N1 N2. cbv zeta.
  unfold Spotify.getAuthData, fetched_json, do_fetch, do_json.
  rewrite !(get_prop_field parsed) by assumption.
  cbn -[to_strings].
  destruct (to_strings _) as [authOptions|e]; cbn; [|reflexivity].
  destruct (fetch w _) as [r|e]; cbn; [|reflexivity].
  destruct (json w r) as [data|e]; cbn; [|reflexivity].
  destruct (get_prop data "id"); reflexivity.
Qed.

Lemma GitHub_getAuthData_eq (w : World) (this : GitHub.Strategy)
  (parsed : JSValue) :
  parsed <> VUndefined -> parsed <> VNull ->
  let tokenData := [ ("access_token", field parsed "access_token");
                     ("scope", field parsed "scope");
                     ("token_type", field parsed "token_type") ] in
  let failed e :=
    HError ("ERROR in getAuthData: Unable to obtain auth data - "
              ++ Exn_toString e) in
  GitHub.getAuthData w this parsed
  = match ToString (field parsed "access_token") with
    | Throw e => (Return (failed e), [])
    | Return access_token =>
        (match fetched_json w (GitHub.profileRequest access_token) with
         | Return data =>
             match get_prop data "id" with
             | Return id =>
                 Return (HAuthData
                           {| tokenData := tokenData;
                              userInfo :=
                                {| provider := "github";
                                   providerUserId := id;
                                   displayName := Some (field data "login");
                                   name_familyName := Some (field data "name");
                                   emails := Some [field data "email"] |} |})
             | Throw e => Return (failed e)
             end
         | Throw e => Return (failed e)
         end,
         [Fetch (GitHub.profileRequest access_token)])
    end.
Proof.
  intros N1 N2. cbv zeta.
  unfold GitHub.getAuthData, fetched_json, do_fetch, do_json.
  rewrite !(get_prop_field parsed) by assumption.
  cbn -[ToString].
  destruct (ToString _) as [access_token|e]; cbn; [|reflexivity].
  destruct (fetch w _) as [r|e]; cbn; [|reflexivity].
  destruct (json w r) as [data|e]; cbn; [|reflexivity].
  destruct data; reflexivity.
Qed.

(** C4, as stated, fails: a profile without [id] is answered with an
    [AuthData] whose [providerUserId] is [undefined], not with an error;
    the same happens to the token fields when the token response has
    none. *)
Lemma getAuthData_accepts_missing_id :
  let w := answering (VObj [("display_name", VStr "Ann")]) in
  let this := {| Spotify.options := []; Spotify.uriFromParams := "" |} in
  exists effs,
    Spotify.getAuthData w this (VObj [])
    = (Return (HAuthData
                 {| tokenData := [ ("access_token", VUndefined);
                                   ("token_type", VUndefined);
                                   ("scope", VUndefined);
                                   ("expires_in", VUndefined);
                                   ("refresh_token", VUndefined) ];
                    userInfo := {| provider := "spotify";
                                   providerUserId := VUndefined;
                                   displayName := None;
                                   name_familyName := None;
                                   emails := None |} |}),
       effs).
Proof. cbv zeta. eexists. reflexivity. Qed.

(** C4 (amended): for a token response that is neither [undefined] nor
    [null], the profile phase first prints the token fields that go into
    the request (all five for Spotify, [access_token] for GitHub).  When
    one of them cannot be printed -- a parsed object that has a
    [toString] property of its own -- it makes no request and returns the
    error value of [getAuthData].  Otherwise it performs one request and
    returns
    - the error value of [getAuthData] when the request is rejected, its
      body does not parse, or it parses to [null];
    - otherwise an [AuthData] of the token fields and the profile fields
      as they were received: [provider] is the strategy's name,
      [providerUserId] is the profile's [id], and a field that the
      response lacks is [undefined] -- in particular a profile without
      [id] gives an [AuthData] whose [providerUserId] is [undefined]. *)
Theorem getAuthData_result (w : World)
  (sthis : Spotify.Strategy) (gthis : GitHub.Strategy) (parsed : JSValue) :
  parsed <> VUndefined -> parsed <> VNull ->
  let stoken := [ ("access_token", field parsed "access_token");
                  ("token_type", field parsed "token_type");
                  ("scope", field parsed "scope");
                  ("expires_in", field parsed "expires_in");
                  ("refresh_token", field parsed "refresh_token") ] in
  let gtoken := [ ("access_token", field parsed "access_token");
                  ("scope", field parsed "scope");
                  ("token_type", field parsed "token_type") ] in
  let failed e :=
    HError ("ERROR in getAuthData: Unable to obtain auth data - "
              ++ Exn_toString e) in
  Spotify.getAuthData w sthis parsed
  = match to_strings stoken with
    | Throw e => (Return (failed e), [])
    | Return authOptions =>
        (match fetched_json w (Spotify.profileRequest authOptions) with
         | Return data =>
             match get_prop data "id" with
             | Return id =>
                 Return (HAuthData
                           {| tokenData := stoken;
                              userInfo := {| provider := "spotify";
                                             providerUserId := id;
                                             displayName := None;
                                             name_familyName := None;
                                             emails := None |} |})
             | Throw e => Return (failed e)
             end
         | Throw e => Return (failed e)
         end,
         [Fetch (Spotify.profileRequest authOptions)])
    end
  /\ GitHub.getAuthData w gthis parsed
     = match ToString (field parsed "access_token") with
       | Throw e => (Return (failed e), [])
       | Return access_token =>
           (match fetched_json w (GitHub.profileRequest access_token) with
            | Return data =>
                match get_prop data "id" with
                | Return id =>
                    Return (HAuthData
                              {| tokenData := gtoken;
                                 userInfo :=
                                   {| provider := "github";
                                      providerUserId := id;
                                      displayName := Some (field data "login");
                                      name_familyName :=
                                        Some (field data "name");
                                      emails := Some [field data "email"] |} |})
                | Throw e => Return (failed e)
                end
            | Throw e => Return (failed e)
            end,
            [Fetch (GitHub.profileRequest access_token)])
       end
  /\ (forall props, has_key props "id" = false ->
        get_prop (VObj props) "id" = Return VUndefined)
  /\ (forall data e, get_prop data "id" = Throw e ->
        data = VUndefined \/ data = VNull)
  /\ (forall props,
        ToString (VObj props)
        = if has_key props "toString"
          then Throw (TypeError "Cannot convert object to primitive value")
          else Return "[object Object]")
  /\ (forall v e, ToString v = Throw e ->
        (exists elems, v = VArr elems)
        \/ (exists props, v = VObj props /\ has_key props "toString" = true)).
Proof.
  intros N1 N2. cbv zeta. repeat split.
  - now apply Spotify_getAuthData_eq.
  - now apply GitHub_getAuthData_eq.
  - intros props H. cbn. now rewrite lookup_without_key.
  - intros data e H. destruct data; try discriminate; auto.
  - intros v e H. destruct v as [| |[|]| | |l|l]; try discriminate.
    + left. now exists l.
    + right. exists l. split; [reflexivity|].
      cbn in H. now destruct (has_key l "toString").
Qed.

Lemma getAuthData_result_witness :
  fst (GitHub.getAuthData (answering (VObj [("login", VStr "ann")]))
         {| GitHub.options := []; GitHub.uriFromParams := "" |}
         (VObj [("access_token", VStr "t0k")]))
  = Return (HAuthData
              {| tokenData := [ ("access_token", VStr "t0k");
                                ("scope", VUndefined);
                                ("token_type", VUndefined) ];
                 userInfo := {| provider := "github";
                                providerUserId := VUndefined;
                                displayName := Some (VStr "ann");
                                name_familyName := Some VUndefined;
                                emails := Some [VUndefined] |} |}).
Proof.
  destruct (getAuthData_result (answering (VObj [("login", VStr "ann")]))
              {| Spotify.options := []; Spotify.uriFromParams := "" |}
              {| GitHub.options := []; GitHub.uriFromParams := "" |}
              (VObj [("access_token", VStr "t0k")]))
    as (_ & H & _); [discriminate | discriminate |].
  cbv zeta in H. rewrite H. reflexivity.
Defined.

(** ** The authorization code and the token request *)

(** C8, as stated, fails in its general part: an ['='] inside the value
    ends the extracted code (the specification's segment runs up to the
    first ['&']), and a query that contains ["error"] sends no token
    request at all. *)
Lemma authorization_code_stops_at_equals :
  authorization_code "?code=a=b&c" = Return "a"
  /\ code_spec "?code=a=b&c" = "a=b"
  /\ snd (Spotify.getAuthToken (answering VNull)
            {| Spotify.options := []; Spotify.uriFromParams := "" |}
            {| search := "?code=abc&state=no_error";
               body_value := ret VUndefined |}) = [].
Proof. repeat split. Qed.

(** C8 (amended): for ["?code=abc%26123"] the extracted code is
    ["abc&123"].  In general, for a query with an ['='], the extracted
    code is the text between the first ['='] and the next ['='] or ['&']
    (or the end of the query) with the ten reserved characters decoded;
    for [?code=<value>&<rest>] with neither ['='] nor ['&'] in [<value>]
    that is [<value>] decoded, the specification's segment.  Unless the
    query contains ["error"], the first effect of [getAuthToken] is the
    token request, and its body carries the decoded code: as the [code]
    field of the form body for Spotify, of the JSON body for GitHub. *)
Theorem authorization_code_decoded (w : World)
  (sthis : Spotify.Strategy) (gthis : GitHub.Strategy) (ctx : OakContext) :
  authorization_code "?code=abc%26123" = Return "abc&123"
  /\ (JS.includes (search ctx) "=" = true ->
      authorization_code (search ctx)
      = Return (decode_spec
                  (before_first "&"
                     (before_first "=" (after_first "=" (search ctx))))))
  /\ (forall value rest,
        JS.includes value "=" = false -> JS.includes value "&" = false ->
        authorization_code ("?code=" ++ value ++ "&" ++ rest)
        = Return (decode_spec value)
        /\ code_spec ("?code=" ++ value ++ "&" ++ rest) = decode_spec value)
  /\ (forall code,
        JS.includes (search ctx) "error" = false ->
        authorization_code (search ctx) = Return code ->
        hd_error (snd (Spotify.getAuthToken w sthis ctx))
        = Some (Fetch (Spotify.tokenRequest w sthis code))
        /\ body (Spotify.tokenRequest w sthis code)
           = Some ("grant_type=authorization_code&code=" ++ code
                     ++ "&redirect_uri="
                     ++ str (prop (Spotify.options sthis) "redirect_uri"))
        /\ hd_error (snd (GitHub.getAuthToken w gthis ctx))
           = Some (Fetch (GitHub.tokenRequest gthis code))
        /\ body (GitHub.tokenRequest gthis code)
           = Some (JSON_stringify
                     [ ("client_id", prop (GitHub.options gthis) "client_id");
                       ("client_secret",
                        prop (GitHub.options gthis) "client_secret");
                       ("redirect_uri",
                        prop (GitHub.options gthis) "redirect_uri");
                       ("code", Some code) ])).
Proof.
  split; [reflexivity|]. split; [|split].
  - intros H. now rewrite authorization_code_eq, H, parseCode_decode_spec.
  - intros value rest H1 H2.
    assert (Ha : after_first "=" ("?code=" ++ value ++ "&" ++ rest)
                 = value ++ "&" ++ rest) by reflexivity.
    assert (Hb : before_first "&" (value ++ "&" ++ rest) = value).
    { rewrite before_first_append by assumption. cbn. apply append_nil_r. }
    split.
    + rewrite authorization_code_eq.
      replace (JS.includes ("?code=" ++ value ++ "&" ++ rest) "=")
        with true by (cbn [append]; now rewrite !includes_1_cons).
      rewrite Ha, parseCode_decode_spec, before_first_twice; rewrite Hb;
        [reflexivity | assumption].
    + unfold code_spec. now rewrite Ha, Hb.
  - intros code He Hc. repeat split.
    + unfold Spotify.getAuthToken. rewrite He, Hc, bind_lift_return.
      now rewrite snd_bind, snd_try_catch, snd_bind, snd_do_fetch.
    + unfold Spotify.tokenRequest. cbn [body]. rewrite constructURI_join.
      cbn. now rewrite ?append_assoc.
    + unfold GitHub.getAuthToken. rewrite He, Hc, bind_lift_return.
      now rewrite snd_bind, snd_try_catch, snd_bind, snd_do_fetch.
Qed.

Lemma authorization_code_decoded_witness :
  let w := answering (VObj [("access_token", VStr "t0k")]) in
  let sthis := {| Spotify.options := [("redirect_uri", "http://localhost/cb")];
                  Spotify.uriFromParams := "" |} in
  let gthis := {| GitHub.options := []; GitHub.uriFromParams := "" |} in
  let ctx := {| search := "?code=abc%26123&state=xyz";
                body_value := ret VUndefined |} in
  authorization_code (search ctx) = Return "abc&123"
  /\ hd_error (snd (Spotify.getAuthToken w sthis ctx))
     = Some (Fetch (Spotify.tokenRequest w sthis "abc&123"))
  /\ body (Spotify.tokenRequest w sthis "abc&123")
     = Some "grant_type=authorization_code&code=abc&123&redirect_uri=http://localhost/cb".
Proof.
  intros w sthis gthis ctx.
  destruct (authorization_code_decoded w sthis gthis ctx)
    as (_ & H2 & H3 & H4).
  split; [|split].
  - apply H2. reflexivity.
  - apply (H4 "abc&123"); reflexivity.
  - apply (H4 "abc&123"); reflexivity.
Defined.

(** ** Which failures are caught *)

Lemma fst_bind {A B} (m : Async A) (k : A -> Async B) :
  fst (bind m k)
  = match fst m with
    | Return a => fst (k a)
    | Throw e => Throw e
    end.
Proof. destruct m as [[a|e] effs]; cbn; [now destruct (k a) | reflexivity]. Qed.

Lemma fst_try_catch {A} (m : Async A) (handler : Exn -> Async A) :
  fst (try_catch m handler)
  = match fst m with
    | Return a => Return a
    | Throw e => fst (handler e)
    end.
Proof.
  destruct m as [[a|e] effs]; cbn; [reflexivity | now destruct (handler e)].
Qed.

Lemma get_prop_returns (v : JSValue) (key : string) (x : JSValue) :
  get_prop v key = Return x -> v <> VUndefined /\ v <> VNull.
Proof. destruct v; (discriminate || (split; discriminate)). Qed.

(** With an ['='] in the query the code exchange returns a value
    whatever the provider answers: the missing ['='] is the only failure
    that escapes. *)
Lemma getAuthToken_returns_with_equals (w : World)
  (sthis : Spotify.Strategy) (gthis : GitHub.Strategy) (ctx : OakContext) :
  JS.includes (search ctx) "=" = true ->
  (exists v, fst (Spotify.getAuthToken w sthis ctx) = Return v)
  /\ (exists v, fst (GitHub.getAuthToken w gthis ctx) = Return v).
Proof.
  intros Hq. split.
  - unfold Spotify.getAuthToken.
    destruct (JS.includes (search ctx) "error"); [now eexists|].
    rewrite authorization_code_eq, Hq, bind_lift_return.
    rewrite fst_bind, fst_try_catch, fst_bind.
    unfold do_fetch. rewrite fst_bind. cbn [perform fst lift].
    destruct (fetch w _) as [r|e]; [|now eexists].
    rewrite fst_bind. unfold do_json. cbn [lift fst].
    destruct (json w r) as [data|e]; [|now eexists].
    rewrite fst_bind. cbn [lift fst].
    destruct (get_prop data "type") as [ty|e] eqn:Ety; [|now eexists].
    destruct (is_string ty "oAuthException"); [now eexists|].
    cbn [ret fst]. apply get_prop_returns in Ety as [N1 N2].
    rewrite (Spotify_getAuthData_eq w sthis data N1 N2). cbv zeta.
    destruct (to_strings _) as [authOptions|e]; [|now eexists].
    cbn [fst]. destruct (fetched_json w _) as [d|e]; [|now eexists].
    destruct (get_prop d "id"); now eexists.
  - unfold GitHub.getAuthToken.
    destruct (JS.includes (search ctx) "error"); [now eexists|].
    rewrite authorization_code_eq, Hq, bind_lift_return.
    rewrite fst_bind, fst_try_catch. cbv zeta. rewrite fst_bind.
    unfold do_fetch. rewrite fst_bind. cbn [perform fst lift].
    destruct (fetch w _) as [r|e]; [|now eexists].
    rewrite fst_bind. unfold do_json. cbn [lift fst].
    destruct (json w r) as [data|e]; [|now eexists].
    rewrite fst_bind. cbn [lift fst].
    destruct (get_prop data "type") as [ty|e] eqn:Ety; [|now eexists].
    destruct (is_string ty "oAuthException"); [now eexists|].
    cbn [ret fst]. apply get_prop_returns in Ety as [N1 N2].
    rewrite (GitHub_getAuthData_eq w gthis data N1 N2). cbv zeta.
    destruct (ToString _) as [access_token|e]; [|now eexists].
    cbn [fst]. destruct (fetched_json w _) as [d|e]; [|now eexists].
    destruct (get_prop d "id"); now eexists.
Qed.

(** ** [LocalStrategy] *)

(** C9, as stated, fails in its last part: what the callback failed with
    does not reach the host.  Whatever the failure, the router returns
    the same error value, which speaks of missing credentials even when
    they were submitted. *)
Lemma Local_router_replaces_failure :
  let failing reason :=
    Local.constructor "username" "password"
      (fun _ => throw (Error_ reason)) in
  let ctx := {| search := "";
                body_value := ret (VObj [ ("username", VStr "ann");
                                          ("password", VStr "pw") ]) |} in
  Local.router (failing "wrong password") ctx
  = (Return (HError "ERROR in router: No Username or Password submitted for authorization"),
     [])
  /\ Local.router (failing "wrong password") ctx
     = Local.router (failing "account locked") ctx.
Proof. split; reflexivity. Qed.

(** C9 (amended): the local router performs no effect of its own -- its
    effects are those of reading the request body and of the injected
    callback, so without an HTTP call of theirs there is none; when both
    succeed it returns [{ userInfo }] with the value that the callback
    produced from the body; when reading the body or the callback throws,
    it returns one fixed error value, whatever the failure was. *)
Theorem Local_router_result (this : Local.Strategy) (ctx : OakContext) :
  let failed :=
    HError "ERROR in router: No Username or Password submitted for authorization" in
  snd (Local.router this ctx)
  = snd (bind (body_value ctx) (Local._authorize this))
  /\ (existsb is_fetch (snd (bind (body_value ctx) (Local._authorize this)))
      = false ->
      existsb is_fetch (snd (Local.router this ctx)) = false)
  /\ (forall credentials userInfo,
        fst (body_value ctx) = Return credentials ->
        fst (Local._authorize this credentials) = Return userInfo ->
        fst (Local.router this ctx) = Return (HUserInfo userInfo))
  /\ (forall e,
        fst (body_value ctx) = Throw e ->
        fst (Local.router this ctx) = Return failed)
  /\ (forall credentials e,
        fst (body_value ctx) = Return credentials ->
        fst (Local._authorize this credentials) = Throw e ->
        fst (Local.router this ctx) = Return failed).
Proof.
  cbv zeta.
  assert (E : snd (Local.router this ctx)
              = snd (bind (body_value ctx) (Local._authorize this))).
  { unfold Local.router. rewrite snd_try_catch, !snd_bind, !fst_bind.
    destruct (body_value ctx) as [[c|e] effs]; cbn [fst snd].
    - rewrite snd_bind. cbn [ret snd].
      destruct (Local._authorize this c) as [[u|e] effs']; cbn;
        now rewrite ?app_nil_r.
    - now rewrite !app_nil_r. }
  split; [exact E|]. split; [now rewrite E|].
  unfold Local.router. repeat split.
  - intros c u Hb Ha.
    rewrite fst_try_catch, fst_bind, Hb, fst_bind, Ha. reflexivity.
  - intros e Hb. rewrite fst_try_catch, fst_bind, Hb. reflexivity.
  - intros c e Hb Ha.
    rewrite fst_try_catch, fst_bind, Hb, fst_bind, Ha. reflexivity.
Qed.

Lemma Local_router_result_witness :
  let this :=
    Local.constructor "username" "password"
      (fun credentials => ret (field credentials "username")) in
  let ctx := {| search := "";
                body_value := ret (VObj [ ("username", VStr "ann");
                                          ("password", VStr "pw") ]) |} in
  fst (Local.router this ctx) = Return (HUserInfo (VStr "ann"))
  /\ existsb is_fetch (snd (Local.router this ctx)) = false.
Proof.
  intros this ctx.
  destruct (Local_router_result this ctx) as (_ & H2 & H3 & _).
  split.
  - apply (H3 (VObj [ ("username", VStr "ann"); ("password", VStr "pw") ]));
      reflexivity.
  - apply H2. reflexivity.
Defined.

(** * Further properties *)

(** ** The codec *)

Lemma concat_amp_app (l1 l2 : list string) :
  l1 <> [] -> l2 <> [] ->
  String.concat "&" (l1 ++ l2)
  = String.concat "&" l1 ++ "&" ++ String.concat "&" l2.
Proof.
  induction l1 as [|x l1 IH]; intros H1 H2; [congruence|].
  destruct l1 as [|y l1].
  - cbn [app]. now rewrite concat_amp_cons.
  - change ((x :: y :: l1) ++ l2)%list with (x :: ((y :: l1) ++ l2))%list.
    rewrite !concat_amp_cons by (cbn; congruence).
    rewrite IH by congruence. now rewrite !append_assoc.
Qed.

Lemma kept_app (m1 m2 : Entries) (skip : option (list string)) :
  kept (m1 ++ m2)%list skip = (kept m1 skip ++ kept m2 skip)%list.
Proof. apply filter_app. Qed.

(** X1: encoding a bag that was put together from two parts is encoding
    the parts and joining them with one ['&']; a part of which nothing is
    kept leaves no trace. *)
Theorem constructURI_append (m1 m2 : Entries) (skip : option (list string)) :
  constructURI (m1 ++ m2)%list skip
  = match kept m1 skip, kept m2 skip with
    | [], _ => constructURI m2 skip
    | _, [] => constructURI m1 skip
    | _, _ => constructURI m1 skip ++ "&" ++ constructURI m2 skip
    end.
Proof.
  rewrite !constructURI_join, kept_app.
  destruct (kept m1 skip) as [|e1 l1]; [reflexivity|].
  destruct (kept m2 skip) as [|e2 l2]; [now rewrite app_nil_r|].
  rewrite map_app. apply concat_amp_app; discriminate.
Qed.

Lemma kept_ext (m : Entries) (skip skip' : option (list string)) :
  (forall k, In k (map fst m) -> skipped skip k = skipped skip' k) ->
  kept m skip = kept m skip'.
Proof.
  intros H. apply filter_ext_in. intros [k v] Hin. cbn [fst].
  rewrite (H k); [reflexivity|]. apply in_map_iff. now exists (k, v).
Qed.

(** X2: the skip list acts as a set of keys.  Two skip lists that agree on
    the keys of the bag give the same text; an empty skip list is as good
    as none; when every key is skipped the text is empty; and the values
    of skipped entries do not matter. *)
Theorem constructURI_skip (m : Entries) (skip skip' : option (list string)) :
  ((forall k, In k (map fst m) -> skipped skip k = skipped skip' k) ->
   constructURI m skip = constructURI m skip')
  /\ constructURI m (Some []) = constructURI m None
  /\ ((forall k, In k (map fst m) -> skipped skip k = true) ->
      constructURI m skip = "")
  /\ (forall m', kept m skip = kept m' skip ->
        constructURI m skip = constructURI m' skip).
Proof.
  split; [|split; [|split]].
  - intros H. now rewrite !constructURI_join, (kept_ext m skip skip' H).
  - rewrite !constructURI_join. f_equal.
  - intros H. rewrite constructURI_join.
    replace (kept m skip) with (@nil (string * string)); [reflexivity|].
    symmetry. unfold kept. induction m as [|[k v] m IH]; [reflexivity|].
    cbn [filter fst]. rewrite (H k) by now left. cbn. apply IH.
    intros k' Hk'. apply H. now right.
  - intros m' H. now rewrite !constructURI_join, H.
Qed.

Lemma constructURI_skip_witness :
  constructURI [("client_id", "abc"); ("client_secret", "s3")]
               (Some ["client_secret"; "state"; "client_secret"])
  = constructURI [("client_id", "abc"); ("client_secret", "other")]
                 (Some ["client_secret"])
  /\ constructURI [("client_secret", "s3")] (Some ["client_secret"]) = "".
Proof.
  split.
  - destruct (constructURI_skip
                [("client_id", "abc"); ("client_secret", "s3")]
                (Some ["client_secret"; "state"; "client_secret"])
                (Some ["client_secret"])) as (H1 & _ & _ & _).
    rewrite H1.
    + destruct (constructURI_skip
                  [("client_id", "abc"); ("client_secret", "s3")]
                  (Some ["client_secret"]) None) as (_ & _ & _ & H4).
      apply H4. reflexivity.
    + intros k [<-|[<-|[]]]; reflexivity.
  - destruct (constructURI_skip [("client_secret", "s3")]
                (Some ["client_secret"]) None) as (_ & _ & H3 & _).
    apply H3. intros k [<-|[]]. reflexivity.
Defined.

Lemma read_key_value (kv : string * string) :
  JS.includes (fst kv) "=" = false ->
  (before_first "=" (key_value kv), after_first "=" (key_value kv)) = kv.
Proof.
  intros H. destruct kv as [k v]. unfold key_value. cbn [fst snd] in *.
  change ("=" ++ v) with (String "=" v).
  rewrite before_first_append, after_first_append by assumption.
  cbn. now rewrite append_nil_r.
Qed.

Lemma read_entries (l : Entries) :
  readable l -> l <> [] ->
  map (fun seg => (before_first "=" seg, after_first "=" seg))
      (JS.split (String.concat "&" (map key_value l)) "&") = l.
Proof.
  intros R N. destruct l as [|e l]; [congruence|].
  cbn [map]. rewrite split_concat_amp.
  - change (key_value e :: map key_value l) with (map key_value (e :: l)).
    rewrite map_map. rewrite <- (map_id (e :: l)) at 2.
    apply map_ext_in. intros kv Hkv. apply read_key_value. now apply R.
  - change (key_value e :: map key_value l) with (map key_value (e :: l)).
    apply Forall_forall. intros x Hx. apply in_map_iff in Hx as [kv [<- Hkv]].
    apply key_value_no_amp; now apply R.
Qed.

(** X3: the text can be read back.  When the kept keys and values have no
    ['&'] and the kept keys no ['='], cutting the text at every ['&'] and
    each piece at its first ['='] gives the kept entries again; so two
    bags have the same text exactly when they keep the same entries, and
    the text is empty exactly when nothing is kept. *)
Theorem constructURI_round_trip (m m' : Entries)
  (skip skip' : option (list string)) :
  readable (kept m skip) -> readable (kept m' skip') ->
  (kept m skip <> [] ->
   map (fun seg => (before_first "=" seg, after_first "=" seg))
       (JS.split (constructURI m skip) "&") = kept m skip)
  /\ (constructURI m skip = "" <-> kept m skip = [])
  /\ (constructURI m skip = constructURI m' skip'
      <-> kept m skip = kept m' skip').
Proof.
  intros R R'.
  assert (E : forall m0 s0, constructURI m0 s0 = "" <-> kept m0 s0 = []).
  { intros m0 s0. rewrite constructURI_join. split.
    - destruct (kept m0 s0) as [|e l]; [reflexivity|]. intros H.
      cbn [map] in H.
      now apply (concat_amp_nonempty _ _ (key_value_nonempty e)) in H.
    - now intros ->. }
  split; [|split; [apply E|]].
  - intros N. rewrite constructURI_join. now apply read_entries.
  - split; [|intros H; now rewrite !constructURI_join, H].
    intros H.
    destruct (kept m skip) as [|e l] eqn:K.
    + apply E in K. rewrite K in H. symmetry in H. apply E in H. now rewrite H.
    + destruct (kept m' skip') as [|e' l'] eqn:K'.
      * apply E in K'. rewrite K' in H. apply E in H. congruence.
      * rewrite !constructURI_join, K, K' in H.
        rewrite <- (read_entries (e :: l)) by (assumption || discriminate).
        rewrite <- (read_entries (e' :: l')) by (assumption || discriminate).
        now rewrite H.
Qed.

Lemma constructURI_round_trip_witness :
  map (fun seg => (before_first "=" seg, after_first "=" seg))
      (JS.split (constructURI [("scope", "user:email"); ("state", "a=b")] None)
                "&")
  = [("scope", "user:email"); ("state", "a=b")].
Proof.
  destruct (constructURI_round_trip
              [("scope", "user:email"); ("state", "a=b")]
              [("scope", "user:email"); ("state", "a=b")] None None)
    as (H & _).
  - intros kv [<-|[<-|[]]]; repeat split.
  - intros kv [<-|[<-|[]]]; repeat split.
  - apply H. cbn. discriminate.
Defined.

Lemma parseCode_loop_absent (raw : string) :
  forall (table : list (string * string)) (fuel : nat),
    forallb (fun e => negb (JS.includes raw (fst e))) table = true ->
    parseCode_loop fuel table raw = Some raw.
Proof.
  induction table as [|[pat rep] rest IH]; intros fuel Ht; [reflexivity|].
  cbn [forallb fst] in Ht. apply andb_true_iff in Ht as [Hp Hr].
  apply negb_true_iff in Hp. cbn [parseCode_loop].
  destruct fuel; cbn [replace_while]; rewrite Hp; now apply IH.
Qed.

Lemma parseCode_complete (raw : string) :
  forallb (fun e => negb (JS.includes (parseCode raw) (fst e))) replacements
  = true.
Proof.
  rewrite parseCode_table.
  pose proof (table_lookup_good replacements replacements_ok) as G.
  assert (F : Forall (fun e => JS.includes
                                 (decode_with (table_lookup replacements) raw)
                                 (fst e) = false) replacements).
  { repeat constructor;
      (eapply (decode_with_complete _ _ _ _ G); [reflexivity | apply le_n]). }
  apply forallb_forall. intros e He. rewrite Forall_forall in F.
  now rewrite (F e He).
Qed.

Lemma includes_first_char (c : ascii) (t s : string) :
  JS.includes s (String c t) = true -> JS.includes s (String c "") = true.
Proof.
  induction s as [|x s IH]; [discriminate|].
  rewrite includes_cons, includes_1_cons, prefix_cons. intros H.
  apply orb_true_iff in H as [H|H].
  - apply andb_true_iff in H as [H _]. now rewrite H.
  - rewrite (IH H). apply orb_true_r.
Qed.

(** X4: decoding twice is decoding once; the result is never longer than
    the input; and an input without ['%'] is returned as it is. *)
Theorem parseCode_idempotent (raw : string) :
  parseCode (parseCode raw) = parseCode raw
  /\ String.length (parseCode raw) <= String.length raw
  /\ (JS.includes raw "%" = false -> parseCode raw = raw).
Proof.
  split; [|split].
  - unfold parseCode at 1, parseCode_fuel.
    now rewrite (parseCode_loop_absent _ _ _ (parseCode_complete raw)).
  - rewrite parseCode_decode_spec.
    now apply (decode_with_length _ (String.length raw) raw).
  - intros H. unfold parseCode, parseCode_fuel.
    rewrite parseCode_loop_absent; [reflexivity|].
    apply forallb_forall. intros [pat rep] Hin. cbn [fst].
    apply negb_true_iff. destruct (JS.includes raw pat) eqn:E; [|reflexivity].
    pose proof replacements_ok as Hok.
    rewrite Forall_forall in Hok.
    destruct (Hok _ Hin) as (a & b & c & Hp & _). cbn [fst] in Hp. subst pat.
    apply includes_first_char in E. congruence.
Qed.

Lemma parseCode_idempotent_witness :
  parseCode "client_id=abc&scope=user" = "client_id=abc&scope=user".
Proof. apply (parseCode_idempotent "client_id=abc&scope=user"). reflexivity. Defined.

Lemma entry_lookup_pat (pat rep : string) (a b c : ascii) :
  entry_lookup pat rep a b = Some c ->
  pat = String "%" (String a (String b "")).
Proof.
  unfold entry_lookup. destruct (String.eqb pat _) eqn:E; [|discriminate].
  intros _. now apply String.eqb_eq.
Qed.

Lemma table_lookup_permutation (t t' : list (string * string)) :
  Permutation t t' -> NoDup (map fst t) ->
  forall a b, table_lookup t a b = table_lookup t' a b.
Proof.
  induction 1 as [|[p r] l l' HP IH|[p1 r1] [p2 r2] l|l l' l'' H1 IH1 H2 IH2];
    intros ND a b.
  - reflexivity.
  - cbn [table_lookup]. unfold orelse. inversion ND; subst.
    now rewrite IH.
  - cbn [table_lookup]. unfold orelse.
    destruct (entry_lookup p1 r1 a b) eqn:E1, (entry_lookup p2 r2 a b) eqn:E2;
      try reflexivity.
    apply entry_lookup_pat in E1, E2. subst.
    cbn in ND. inversion ND as [|? ? Hn _]; subst. exfalso. apply Hn. now left.
  - rewrite IH1 by assumption. apply IH2.
    apply (Permutation_NoDup (Permutation_map fst H1) ND).
Qed.

(** X5: the order in which [parseCode] goes through its table does not
    matter: with the ten entries in any other order the loops end with
    the same text. *)
Theorem parseCode_order_independent (table : list (string * string))
  (raw : string) (fuel : nat) :
  Permutation replacements table ->
  String.length raw <= fuel ->
  parseCode_loop fuel table raw = Some (parseCode raw).
Proof.
  intros HP Hf.
  rewrite (parseCode_loop_decode table
             (Permutation_Forall HP replacements_ok) fuel raw Hf).
  rewrite parseCode_table. f_equal.
  apply (decode_with_ext _ _) with (n := String.length raw); [|apply le_n].
  intros a b. symmetry. apply table_lookup_permutation; [assumption|].
  repeat constructor; cbn; intuition discriminate.
Qed.

Lemma parseCode_order_independent_witness :
  parseCode_loop 9 (rev replacements) "a%3Db%26c" = Some "a=b&c".
Proof.
  apply (parseCode_order_independent (rev replacements) "a%3Db%26c" 9).
  - apply Permutation_rev.
  - cbn. lia.
Defined.

(** ** The flow of [SpotifyStrategy] and [GitHubStrategy] *)

(** The code exchange as a case analysis on what the token endpoint
    answers. *)
Lemma Spotify_getAuthToken_eq (w : World) (this : Spotify.Strategy)
  (ctx : OakContext) (code : string) :
  JS.includes (search ctx) "error" = false ->
  authorization_code (search ctx) = Return code ->
  let req := Spotify.tokenRequest w this code in
  let failed e :=
    HError ("ERROR in getAuthToken: Unable to obtain token - "
              ++ Exn_toString e) in
  Spotify.getAuthToken w this ctx
  = match fetched_json w req with
    | Throw e => (Return (failed e), [Fetch req])
    | Return data =>
        match get_prop data "type" with
        | Throw e => (Return (failed e), [Fetch req])
        | Return type =>
            if is_string type "oAuthException"
            then (Return (HError "ERROR in getAuthToken: Token request threw OAuth exception."),
                  [Fetch req])
            else (fst (Spotify.getAuthData w this data),
                  Fetch req :: snd (Spotify.getAuthData w this data))
        end
    end.
Proof.
  intros He Hc. cbv zeta.
  unfold Spotify.getAuthToken. rewrite He, Hc, bind_lift_return.
  unfold fetched_json, do_fetch, do_json. cbn -[Spotify.getAuthData].
  destruct (fetch w _) as [r|e]; cbn -[Spotify.getAuthData]; [|reflexivity].
  destruct (json w r) as [data|e]; cbn -[Spotify.getAuthData]; [|reflexivity].
  destruct (get_prop data "type") as [ty|e]; cbn -[Spotify.getAuthData];
    [|reflexivity].
  destruct (is_string ty "oAuthException"); cbn -[Spotify.getAuthData];
    [reflexivity|].
  now destruct (Spotify.getAuthData w this data).
Qed.

Lemma GitHub_getAuthToken_eq (w : World) (this : GitHub.Strategy)
  (ctx : OakContext) (code : string) :
  JS.includes (search ctx) "error" = false ->
  authorization_code (search ctx) = Return code ->
  let req := GitHub.tokenRequest this code in
  let failed e :=
    HError ("ERROR in getAuthToken: Unable to obtain token - "
              ++ Exn_toString e) in
  GitHub.getAuthToken w this ctx
  = match fetched_json w req with
    | Throw e => (Return (failed e), [Fetch req])
    | Return data =>
        match get_prop data "type" with
        | Throw e => (Return (failed e), [Fetch req])
        | Return type =>
            if is_string type "oAuthException"
            then (Return (HError "ERROR in getAuthToken: Token request threw OAuth exception."),
                  [Fetch req])
            else (fst (GitHub.getAuthData w this data),
                  Fetch req :: snd (GitHub.getAuthData w this data))
        end
    end.
Proof.
  intros He Hc. cbv zeta.
  unfold GitHub.getAuthToken. rewrite He, Hc, bind_lift_return.
  unfold fetched_json, do_fetch, do_json. cbn -[GitHub.getAuthData].
  destruct (fetch w _) as [r|e]; cbn -[GitHub.getAuthData]; [|reflexivity].
  destruct (json w r) as [data|e]; cbn -[GitHub.getAuthData]; [|reflexivity].
  destruct (get_prop data "type") as [ty|e]; cbn -[GitHub.getAuthData];
    [|reflexivity].
  destruct (is_string ty "oAuthException"); cbn -[GitHub.getAuthData];
    [reflexivity|].
  now destruct (GitHub.getAuthData w this data).
Qed.

Lemma kept_None (opts : Entries) : kept opts None = opts.
Proof.
  induction opts as [|kv opts IH]; [reflexivity|].
  unfold kept in *. cbn [filter]. cbn [skipped negb]. f_equal. exact IH.
Qed.

Lemma prop_In (opts : Entries) (key value : string) :
  prop opts key = Some value -> In (key, value) opts.
Proof.
  induction opts as [|[k v] opts IH]; [discriminate|]. cbn.
  destruct (String.eqb k key) eqn:E.
  - apply String.eqb_eq in E. intros [= ->]. left. now subst.
  - intros H. right. now apply IH.
Qed.

Lemma not_falsy (v : option string) :
  falsy v = false -> exists s, v = Some s /\ s <> "".
Proof.
  destruct v as [s|]; [|discriminate]. cbn. intros H.
  exists s. split; [reflexivity|]. now apply String.eqb_neq.
Qed.

(** X6: for [SpotifyStrategy], the redirect of a request without query
    string is the authorize URL followed by the options other than
    [client_secret]; two configurations that keep the same entries once
    [client_secret] is set aside are redirected alike, so the redirect
    tells nothing about the secret. *)
Theorem Spotify_redirect_hides_client_secret (w : World)
  (opts opts' : Entries) (this this' : Spotify.Strategy) (ctx : OakContext) :
  Spotify.constructor opts = Return this ->
  Spotify.constructor opts' = Return this' ->
  search ctx = "" ->
  kept opts (Some ["client_secret"]) = kept opts' (Some ["client_secret"]) ->
  Spotify.router w this ctx
  = (Return HUndefined,
     [Redirect (Spotify.authURL
                  ++ String.concat "&"
                       (map key_value (kept opts (Some ["client_secret"]))))])
  /\ Spotify.router w this' ctx = Spotify.router w this ctx
  /\ ~ In "client_secret" (map fst (kept opts (Some ["client_secret"]))).
Proof.
  intros Hc Hc' Hs Hk.
  rewrite (Spotify_redirect w opts this ctx Hc Hs).
  rewrite (Spotify_redirect w opts' this' ctx Hc' Hs).
  rewrite !constructURI_join, Hk. repeat split.
  intros Hin. rewrite <- Hk in Hin. apply kept_keys in Hin as [_ Hin].
  discriminate.
Qed.

Lemma Spotify_redirect_hides_client_secret_witness :
  let opts secret :=
    [ ("client_id", "id"); ("client_secret", secret);
      ("redirect_uri", "http://localhost/cb"); ("state", "xyz") ] in
  let this secret :=
    {| Spotify.options := opts secret;
       Spotify.uriFromParams :=
         constructURI (opts secret) (Some ["client_secret"]) |} in
  let ctx := {| search := ""; body_value := ret VUndefined |} in
  Spotify.router (answering VNull) (this "other") ctx
  = Spotify.router (answering VNull) (this "s3cr3t") ctx.
Proof.
  intros opts this ctx.
  apply (Spotify_redirect_hides_client_secret (answering VNull)
           (opts "s3cr3t") (opts "other") (this "s3cr3t") (this "other") ctx);
    reflexivity.
Defined.

(** X7: for [GitHubStrategy], the redirect of a request without query
    string lists every option of the configuration, and the entry
    [client_secret=<secret>] with the configured, non-empty secret is one
    of them. *)
Theorem GitHub_redirect_lists_every_option (w : World) (opts : Entries)
  (this : GitHub.Strategy) (ctx : OakContext) :
  GitHub.constructor opts = Return this ->
  search ctx = "" ->
  GitHub.router w this ctx
  = (Return HUndefined,
     [Redirect (GitHub.authURL ++ String.concat "&" (map key_value opts))])
  /\ exists secret,
       prop opts "client_secret" = Some secret /\ secret <> ""
       /\ In ("client_secret=" ++ secret) (map key_value opts).
Proof.
  intros Hc Hs. split.
  - rewrite (GitHub_redirect w opts this ctx Hc Hs).
    now rewrite constructURI_join, kept_None.
  - unfold GitHub.constructor in Hc.
    destruct (falsy (prop opts "client_id")); [discriminate|].
    destruct (falsy (prop opts "redirect_uri")); [discriminate|].
    destruct (falsy (prop opts "client_secret")) eqn:E; [discriminate|].
    apply not_falsy in E as (secret & E & N).
    exists secret. repeat split; try assumption.
    apply in_map_iff. exists ("client_secret", secret).
    split; [reflexivity | now apply prop_In].
Qed.

Lemma GitHub_redirect_lists_every_option_witness :
  let opts := [ ("client_id", "id"); ("redirect_uri", "http://localhost/cb");
                ("client_secret", "s3cr3t"); ("scope", "user") ] in
  GitHub.router (answering VNull)
    {| GitHub.options := opts; GitHub.uriFromParams := constructURI opts None |}
    {| search := ""; body_value := ret VUndefined |}
  = (Return HUndefined,
     [Redirect "https://github.com/login/oauth/authorize?client_id=id&redirect_uri=http://localhost/cb&client_secret=s3cr3t&scope=user"]).
Proof.
  intros opts.
  apply (GitHub_redirect_lists_every_option (answering VNull) opts
           {| GitHub.options := opts;
              GitHub.uriFromParams := constructURI opts None |}
           {| search := ""; body_value := ret VUndefined |});
    reflexivity.
Defined.

(** X8: once the constructor has accepted the options, the token request
    is built from configured values only, never from a missing one:
    Spotify sends [Basic base64(client_id:client_secret)] and a form body
    of [grant_type], [code] and [redirect_uri] (the secret is not in the
    body); GitHub sends a JSON body with all four of [client_id],
    [client_secret], [redirect_uri] and [code]. *)
Theorem tokenRequest_configured (w : World) (opts : Entries) (code : string) :
  (forall this, Spotify.constructor opts = Return this ->
     exists id secret uri,
       prop opts "client_id" = Some id /\ id <> ""
       /\ prop opts "client_secret" = Some secret /\ secret <> ""
       /\ prop opts "redirect_uri" = Some uri /\ uri <> ""
       /\ Spotify.tokenRequest w this code
          = {| url := "https://accounts.spotify.com/api/token?";
               method := Some "POST";
               headers :=
                 [ ("Authorization",
                    "Basic " ++ Base64_fromString w (id ++ ":" ++ secret));
                   ("Content-Type", "application/x-www-form-urlencoded") ];
               body := Some ("grant_type=authorization_code&code=" ++ code
                               ++ "&redirect_uri=" ++ uri) |})
  /\ (forall this, GitHub.constructor opts = Return this ->
        exists id secret uri,
          prop opts "client_id" = Some id /\ id <> ""
          /\ prop opts "client_secret" = Some secret /\ secret <> ""
          /\ prop opts "redirect_uri" = Some uri /\ uri <> ""
          /\ GitHub.tokenRequest this code
             = {| url := "https://github.com/login/oauth/access_token";
                  method := Some "POST";
                  headers := [ ("Accept", "application/json");
                               ("Content-Type", "application/json") ];
                  body :=
                    Some ("{" ++ JSON_quote "client_id" ++ ":" ++ JSON_quote id
                            ++ "," ++ JSON_quote "client_secret" ++ ":"
                            ++ JSON_quote secret
                            ++ "," ++ JSON_quote "redirect_uri" ++ ":"
                            ++ JSON_quote uri
                            ++ "," ++ JSON_quote "code" ++ ":"
                            ++ JSON_quote code ++ "}") |}).
Proof.
  split; intros this Hc.
  - pose proof (Spotify_constructor_inv opts this Hc) as [Ho _].
    unfold Spotify.constructor in Hc.
    destruct (falsy (prop opts "client_id")) eqn:E1; [discriminate|].
    destruct (falsy (prop opts "redirect_uri")) eqn:E2; [discriminate|].
    destruct (falsy (prop opts "state")); [discriminate|].
    destruct (falsy (prop opts "client_secret")) eqn:E3; [discriminate|].
    apply not_falsy in E1 as (id & E1 & N1).
    apply not_falsy in E2 as (uri & E2 & N2).
    apply not_falsy in E3 as (secret & E3 & N3).
    exists id, secret, uri. repeat split; try assumption.
    unfold Spotify.tokenRequest. rewrite Ho, E1, E2, E3, constructURI_join.
    cbn. now rewrite ?append_assoc.
  - pose proof (GitHub_constructor_inv opts this Hc) as [Ho _].
    unfold GitHub.constructor in Hc.
    destruct (falsy (prop opts "client_id")) eqn:E1; [discriminate|].
    destruct (falsy (prop opts "redirect_uri")) eqn:E2; [discriminate|].
    destruct (falsy (prop opts "client_secret")) eqn:E3; [discriminate|].
    apply not_falsy in E1 as (id & E1 & N1).
    apply not_falsy in E2 as (uri & E2 & N2).
    apply not_falsy in E3 as (secret & E3 & N3).
    exists id, secret, uri. repeat split; try assumption.
    unfold GitHub.tokenRequest. rewrite Ho, E1, E2, E3.
    unfold JSON_stringify. cbn [flat_map snd fst app String.concat].
    do 2 f_equal. rewrite ?append_assoc. reflexivity.
Qed.

Lemma tokenRequest_configured_witness :
  let opts := [ ("client_id", "id"); ("client_secret", "s3cr3t");
                ("redirect_uri", "http://localhost/cb"); ("state", "xyz") ] in
  exists id secret uri,
    prop opts "client_id" = Some id /\ id <> ""
    /\ prop opts "client_secret" = Some secret /\ secret <> ""
    /\ prop opts "redirect_uri" = Some uri /\ uri <> ""
    /\ GitHub.tokenRequest
         {| GitHub.options := opts;
            GitHub.uriFromParams := constructURI opts None |} "abc"
       = {| url := "https://github.com/login/oauth/access_token";
            method := Some "POST";
            headers := [ ("Accept", "application/json");
                         ("Content-Type", "application/json") ];
            body :=
              Some ("{" ++ JSON_quote "client_id" ++ ":" ++ JSON_quote id
                      ++ "," ++ JSON_quote "client_secret" ++ ":"
                      ++ JSON_quote secret
                      ++ "," ++ JSON_quote "redirect_uri" ++ ":"
                      ++ JSON_quote uri
                      ++ "," ++ JSON_quote "code" ++ ":"
                      ++ JSON_quote "abc" ++ "}") |}.
Proof.
  intros opts.
  apply (tokenRequest_configured (answering VNull) opts "abc").
  reflexivity.
Defined.

(** X9: [getAuthToken] throws (its promise is rejected) exactly when the
    query has neither ["error"] nor an ['=']; in every other case it
    returns a value, whatever the provider answers. *)
Theorem getAuthToken_rejects_iff (w : World)
  (sthis : Spotify.Strategy) (gthis : GitHub.Strategy) (ctx : OakContext) :
  ((exists e, fst (Spotify.getAuthToken w sthis ctx) = Throw e)
   <-> JS.includes (search ctx) "error" = false
       /\ JS.includes (search ctx) "=" = false)
  /\ ((exists e, fst (GitHub.getAuthToken w gthis ctx) = Throw e)
      <-> JS.includes (search ctx) "error" = false
          /\ JS.includes (search ctx) "=" = false).
Proof.
  assert (R : JS.includes (search ctx) "error" = true ->
              fst (Spotify.getAuthToken w sthis ctx)
              = Return (HError "ERROR in getAuthToken: Received an error from auth token code request.")
              /\ fst (GitHub.getAuthToken w gthis ctx)
                 = Return (HError "ERROR in getAuthToken: Received an error from auth token code request.")).
  { intros H. unfold Spotify.getAuthToken, GitHub.getAuthToken.
    now rewrite H. }
  split; split.
  - intros [e He]. destruct (JS.includes (search ctx) "error") eqn:E1.
    + destruct (R eq_refl) as [H _]. congruence.
    + destruct (JS.includes (search ctx) "=") eqn:E2; [|auto].
      destruct (getAuthToken_returns_with_equals w sthis gthis ctx E2)
        as [[v Hv] _]. congruence.
  - intros [E1 E2].
    destruct (getAuthToken_throws_iff_no_equals w sthis gthis ctx E1 E2)
      as [-> _]. now eexists.
  - intros [e He]. destruct (JS.includes (search ctx) "error") eqn:E1.
    + destruct (R eq_refl) as [_ H]. congruence.
    + destruct (JS.includes (search ctx) "=") eqn:E2; [|auto].
      destruct (getAuthToken_returns_with_equals w sthis gthis ctx E2)
        as [_ [v Hv]]. congruence.
  - intros [E1 E2].
    destruct (getAuthToken_throws_iff_no_equals w sthis gthis ctx E1 E2)
      as [_ ->]. now eexists.
Qed.

(** X10: when the token phase fails -- the request is rejected or its body
    does not parse, the response is [null], or the provider answers with
    [type: 'oAuthException'] -- [getAuthToken] returns an error value
    after that one request: the profile endpoint is not contacted. *)
Theorem getAuthToken_token_failure (w : World)
  (sthis : Spotify.Strategy) (gthis : GitHub.Strategy) (ctx : OakContext)
  (code : string) :
  JS.includes (search ctx) "error" = false ->
  authorization_code (search ctx) = Return code ->
  let sreq := Spotify.tokenRequest w sthis code in
  let greq := GitHub.tokenRequest gthis code in
  let failed e :=
    HError ("ERROR in getAuthToken: Unable to obtain token - "
              ++ Exn_toString e) in
  let refused :=
    HError "ERROR in getAuthToken: Token request threw OAuth exception." in
  (forall e, fetched_json w sreq = Throw e ->
     Spotify.getAuthToken w sthis ctx = (Return (failed e), [Fetch sreq]))
  /\ (fetched_json w sreq = Return VNull ->
      Spotify.getAuthToken w sthis ctx
      = (Return (failed (TypeError "Cannot read properties of null (reading 'type')")),
         [Fetch sreq]))
  /\ (forall data,
        fetched_json w sreq = Return data ->
        get_prop data "type" = Return (VStr "oAuthException") ->
        Spotify.getAuthToken w sthis ctx = (Return refused, [Fetch sreq]))
  /\ (forall e, fetched_json w greq = Throw e ->
        GitHub.getAuthToken w gthis ctx = (Return (failed e), [Fetch greq]))
  /\ (fetched_json w greq = Return VNull ->
      GitHub.getAuthToken w gthis ctx
      = (Return (failed (TypeError "Cannot read properties of null (reading 'type')")),
         [Fetch greq]))
  /\ (forall data,
        fetched_json w greq = Return data ->
        get_prop data "type" = Return (VStr "oAuthException") ->
        GitHub.getAuthToken w gthis ctx = (Return refused, [Fetch greq])).
Proof.
  intros He Hc. cbv zeta.
  pose proof (Spotify_getAuthToken_eq w sthis ctx code He Hc) as ES.
  pose proof (GitHub_getAuthToken_eq w gthis ctx code He Hc) as EG.
  cbv zeta in ES, EG. rewrite ES, EG.
  repeat split.
  - now intros e ->.
  - now intros ->.
  - now intros data -> ->.
  - now intros e ->.
  - now intros ->.
  - now intros data -> ->.
Qed.

Lemma getAuthToken_token_failure_witness :
  let w := {| Response := unit;
              fetch := fun _ => Throw (Rejection "connection refused");
              json := fun _ => Return VNull;
              Base64_fromString := fun s => s |} in
  let this := {| GitHub.options := []; GitHub.uriFromParams := "" |} in
  let ctx := {| search := "?code=abc"; body_value := ret VUndefined |} in
  GitHub.getAuthToken w this ctx
  = (Return (HError "ERROR in getAuthToken: Unable to obtain token - connection refused"),
     [Fetch (GitHub.tokenRequest this "abc")]).
Proof.
  intros w this ctx.
  destruct (getAuthToken_token_failure w
              {| Spotify.options := []; Spotify.uriFromParams := "" |}
              this ctx "abc") as (_ & _ & _ & H & _);
    [reflexivity | reflexivity |].
  apply (H (Rejection "connection refused")). reflexivity.
Defined.

Lemma Spotify_getAuthData_effects (w : World) (this : Spotify.Strategy)
  (data : JSValue) (x : JSValue) (key : string) :
  get_prop data key = Return x ->
  snd (Spotify.getAuthData w this data) = []
  \/ exists authOptions,
       snd (Spotify.getAuthData w this data)
       = [Fetch (Spotify.profileRequest authOptions)].
Proof.
  intros H. apply get_prop_returns in H as [N1 N2].
  rewrite (Spotify_getAuthData_eq w this data N1 N2). cbv zeta.
  destruct (to_strings _) as [authOptions|e]; [|now left].
  right. now exists authOptions.
Qed.

Lemma GitHub_getAuthData_effects (w : World) (this : GitHub.Strategy)
  (data : JSValue) (x : JSValue) (key : string) :
  get_prop data key = Return x ->
  snd (GitHub.getAuthData w this data) = []
  \/ exists access_token,
       snd (GitHub.getAuthData w this data)
       = [Fetch (GitHub.profileRequest access_token)].
Proof.
  intros H. apply get_prop_returns in H as [N1 N2].
  rewrite (GitHub_getAuthData_eq w this data N1 N2). cbv zeta.
  destruct (ToString _) as [access_token|e]; [|now left].
  right. now exists access_token.
Qed.

(** X11: what one call of [router] does to the outside is one of four
    things: the redirect of STEP 1 (exactly when there is no query
    string); nothing; the token request; or the token request followed by
    the profile request.  A request is never both redirected and
    exchanged, and the profile endpoint is never contacted before the
    token endpoint. *)
Theorem router_effects (w : World)
  (sthis : Spotify.Strategy) (gthis : GitHub.Strategy) (ctx : OakContext) :
  (let effs := snd (Spotify.router w sthis ctx) in
   (search ctx = ""
    /\ effs = [Redirect (Spotify.authURL ++ Spotify.uriFromParams sthis)])
   \/ (search ctx <> ""
       /\ (effs = []
           \/ exists code,
                authorization_code (search ctx) = Return code
                /\ (effs = [Fetch (Spotify.tokenRequest w sthis code)]
                    \/ exists authOptions,
                         effs = [ Fetch (Spotify.tokenRequest w sthis code);
                                  Fetch (Spotify.profileRequest authOptions) ]))))
  /\ (let effs := snd (GitHub.router w gthis ctx) in
      (search ctx = ""
       /\ effs = [Redirect (GitHub.authURL ++ GitHub.uriFromParams gthis)])
      \/ (search ctx <> ""
          /\ (effs = []
              \/ exists code,
                   authorization_code (search ctx) = Return code
                   /\ (effs = [Fetch (GitHub.tokenRequest gthis code)]
                       \/ exists access_token,
                            effs = [ Fetch (GitHub.tokenRequest gthis code);
                                     Fetch (GitHub.profileRequest access_token) ])))).
Proof.
  cbv zeta. split.
  - unfold Spotify.router, Spotify.route.
    destruct (String.eqb (search ctx) "") eqn:E0.
    { apply String.eqb_eq in E0. left. now split. }
    apply String.eqb_neq in E0. right. split; [assumption|].
    destruct (String.eqb (JS.slice (search ctx) 1 5) "code"); [|now left].
    destruct (JS.includes (search ctx) "error") eqn:He.
    { left. unfold Spotify.getAuthToken. now rewrite He. }
    destruct (authorization_code (search ctx)) as [code|e] eqn:Hc.
    2:{ left. unfold Spotify.getAuthToken. now rewrite He, Hc. }
    right. exists code. split; [reflexivity|].
    rewrite (Spotify_getAuthToken_eq w sthis ctx code He Hc). cbv zeta.
    destruct (fetched_json w _) as [data|e]; [|now left].
    destruct (get_prop data "type") as [ty|e] eqn:Ety; [|now left].
    destruct (is_string ty "oAuthException"); [now left|].
    cbn [snd].
    destruct (Spotify_getAuthData_effects w sthis data ty "type" Ety)
      as [Htd|[td Htd]]; rewrite Htd; [now left|].
    right. now exists td.
  - unfold GitHub.router, GitHub.route.
    destruct (String.eqb (search ctx) "") eqn:E0.
    { apply String.eqb_eq in E0. left. now split. }
    apply String.eqb_neq in E0. right. split; [assumption|].
    destruct (String.eqb (JS.slice (search ctx) 1 5) "code"); [|now left].
    destruct (JS.includes (search ctx) "error") eqn:He.
    { left. unfold GitHub.getAuthToken. now rewrite He. }
    destruct (authorization_code (search ctx)) as [code|e] eqn:Hc.
    2:{ left. unfold GitHub.getAuthToken. now rewrite He, Hc. }
    right. exists code. split; [reflexivity|].
    rewrite (GitHub_getAuthToken_eq w gthis ctx code He Hc). cbv zeta.
    destruct (fetched_json w _) as [data|e]; [|now left].
    destruct (get_prop data "type") as [ty|e] eqn:Ety; [|now left].
    destruct (is_string ty "oAuthException"); [now left|].
    cbn [snd].
    destruct (GitHub_getAuthData_effects w gthis data ty "type" Ety)
      as [Htd|[td Htd]]; rewrite Htd; [now left|].
    right. now exists td.
Qed.

(** X12: the whole exchange on its good path.  When the query has a code
    and no ["error"], the token endpoint answers with JSON that is not an
    OAuth exception and whose fields for the profile request can be
    printed, and the profile endpoint answers with JSON other than
    [null], [getAuthToken] returns the [AuthData] made of both answers
    after exactly these two requests, the profile request being built
    from the token answer. *)
Theorem getAuthToken_success (w : World)
  (sthis : Spotify.Strategy) (gthis : GitHub.Strategy) (ctx : OakContext)
  (code : string) (parsed type data : JSValue) :
  JS.includes (search ctx) "error" = false ->
  authorization_code (search ctx) = Return code ->
  get_prop parsed "type" = Return type ->
  is_string type "oAuthException" = false ->
  data <> VUndefined -> data <> VNull ->
  let stoken := [ ("access_token", field parsed "access_token");
                  ("token_type", field parsed "token_type");
                  ("scope", field parsed "scope");
                  ("expires_in", field parsed "expires_in");
                  ("refresh_token", field parsed "refresh_token") ] in
  let gtoken := [ ("access_token", field parsed "access_token");
                  ("scope", field parsed "scope");
                  ("token_type", field parsed "token_type") ] in
  (forall authOptions,
     to_strings stoken = Return authOptions ->
     fetched_json w (Spotify.tokenRequest w sthis code) = Return parsed ->
     fetched_json w (Spotify.profileRequest authOptions) = Return data ->
     Spotify.getAuthToken w sthis ctx
     = (Return (HAuthData
                  {| tokenData := stoken;
                     userInfo := {| provider := "spotify";
                                    providerUserId := field data "id";
                                    displayName := None;
                                    name_familyName := None;
                                    emails := None |} |}),
        [ Fetch (Spotify.tokenRequest w sthis code);
          Fetch (Spotify.profileRequest authOptions) ]))
  /\ (forall access_token,
        ToString (field parsed "access_token") = Return access_token ->
        fetched_json w (GitHub.tokenRequest gthis code) = Return parsed ->
        fetched_json w (GitHub.profileRequest access_token) = Return data ->
        GitHub.getAuthToken w gthis ctx
        = (Return (HAuthData
                     {| tokenData := gtoken;
                        userInfo :=
                          {| provider := "github";
                             providerUserId := field data "id";
                             displayName := Some (field data "login");
                             name_familyName := Some (field data "name");
                             emails := Some [field data "email"] |} |}),
           [ Fetch (GitHub.tokenRequest gthis code);
             Fetch (GitHub.profileRequest access_token) ])).
Proof.
  intros He Hc Hty Hno N1 N2. cbv zeta.
  pose proof (get_prop_returns _ _ _ Hty) as [P1 P2].
  split; intros printed Hs Ht Hp.
  - rewrite (Spotify_getAuthToken_eq w sthis ctx code He Hc). cbv zeta.
    rewrite Ht, Hty, Hno.
    rewrite (Spotify_getAuthData_eq w sthis parsed P1 P2). cbv zeta.
    rewrite Hs, Hp, (get_prop_field data "id" N1 N2). reflexivity.
  - rewrite (GitHub_getAuthToken_eq w gthis ctx code He Hc). cbv zeta.
    rewrite Ht, Hty, Hno.
    rewrite (GitHub_getAuthData_eq w gthis parsed P1 P2). cbv zeta.
    rewrite Hs, Hp, (get_prop_field data "id" N1 N2). reflexivity.
Qed.

Lemma getAuthToken_success_witness :
  let w := {| Response := bool;
              fetch := fun req =>
                         Return (String.eqb (url req)
                                   "https://github.com/login/oauth/access_token");
              json := fun r =>
                        Return (if r
                                then VObj [("access_token", VStr "t0k")]
                                else VObj [("id", VNum "7");
                                           ("login", VStr "ann")]);
              Base64_fromString := fun s => s |} in
  let this := {| GitHub.options := []; GitHub.uriFromParams := "" |} in
  let ctx := {| search := "?code=abc%26123&state=xyz";
                body_value := ret VUndefined |} in
  fst (GitHub.getAuthToken w this ctx)
  = Return (HAuthData
              {| tokenData := [ ("access_token", VStr "t0k");
                                ("scope", VUndefined);
                                ("token_type", VUndefined) ];
                 userInfo := {| provider := "github";
                                providerUserId := VNum "7";
                                displayName := Some (VStr "ann");
                                name_familyName := Some VUndefined;
                                emails := Some [VUndefined] |} |}).
Proof.
  intros w this ctx.
  destruct (getAuthToken_success w
              {| Spotify.options := []; Spotify.uriFromParams := "" |}
              this ctx "abc&123"
              (VObj [("access_token", VStr "t0k")]) VUndefined
              (VObj [("id", VNum "7"); ("login", VStr "ann")]))
    as [_ H];
    [reflexivity | reflexivity | reflexivity | reflexivity
    | discriminate | discriminate |].
  cbv zeta in H. rewrite (H "t0k"); reflexivity.
Defined.

Lemma prefix_append (s t : string) : prefix s (s ++ t) = true.
Proof.
  induction s as [|c s IH]; [apply prefix_nil|].
  cbn [append]. now rewrite prefix_cons, Ascii.eqb_refl, IH.
Qed.

(** X13: a token answer without [access_token] does not stop the flow.
    GitHub sends the profile request all the same, with the header
    [Authorization: token undefined].  Spotify sends it to a URL that
    starts with [access_token=undefined], provided its four other token
    fields can be printed; when one of them cannot, it sends nothing and
    returns the error value of [getAuthData]. *)
Theorem getAuthData_without_access_token (w : World)
  (sthis : Spotify.Strategy) (gthis : GitHub.Strategy)
  (props : list (string * JSValue)) :
  has_key props "access_token" = false ->
  let others := [ ("token_type", lookup props "token_type");
                  ("scope", lookup props "scope");
                  ("expires_in", lookup props "expires_in");
                  ("refresh_token", lookup props "refresh_token") ] in
  snd (GitHub.getAuthData w gthis (VObj props))
  = [Fetch {| url := "https://api.github.com/user";
              method := None;
              headers := [("Authorization", "token undefined")];
              body := None |}]
  /\ (forall printed, to_strings others = Return printed ->
        exists req,
          snd (Spotify.getAuthData w sthis (VObj props)) = [Fetch req]
          /\ prefix "https://api.spotify.com/v1/me?access_token=undefined&token_type="
                    (url req) = true
          /\ method req = None /\ headers req = [] /\ body req = None)
  /\ (forall e, to_strings others = Throw e ->
        Spotify.getAuthData w sthis (VObj props)
        = (Return (HError ("ERROR in getAuthData: Unable to obtain auth data - "
                             ++ Exn_toString e)),
           [])).
Proof.
  intros H. cbv zeta. apply lookup_without_key in H.
  assert (N1 : VObj props <> VUndefined) by discriminate.
  assert (N2 : VObj props <> VNull) by discriminate.
  split; [|split].
  - rewrite (GitHub_getAuthData_eq w gthis _ N1 N2). cbv zeta. cbn [field].
    now rewrite H.
  - intros printed Hp.
    rewrite (Spotify_getAuthData_eq w sthis _ N1 N2). cbv zeta. cbn [field].
    rewrite H. cbn [to_strings ToString] in *. rewrite Hp. cbn [snd].
    eexists. split; [reflexivity|].
    unfold Spotify.profileRequest. cbn [url method headers body].
    repeat split.
    destruct printed as [|[k1 v1] printed]; [cbn in Hp |].
    { repeat (match type of Hp with
              | context [match ?x with _ => _ end] => destruct x
              end; try discriminate). }
    assert (k1 = "token_type").
    { cbn in Hp.
      repeat (match type of Hp with
              | context [match ?x with _ => _ end] => destruct x
              end; try discriminate).
      now injection Hp as <- _. }
    subst k1. rewrite constructURI_join, kept_None.
    change (map key_value (("access_token", "undefined")
                             :: ("token_type", v1) :: printed))
      with (key_value ("access_token", "undefined")
              :: map key_value (("token_type", v1) :: printed)).
    rewrite concat_amp_cons by discriminate.
    change (map key_value (("token_type", v1) :: printed))
      with (key_value ("token_type", v1) :: map key_value printed).
    unfold Spotify.authDataURL, key_value at 1 2. cbn [fst snd].
    destruct (map key_value printed) as [|e l].
    + cbn [String.concat append].
      rewrite !prefix_cons, prefix_nil. reflexivity.
    + rewrite concat_amp_cons by discriminate. cbn [append].
      rewrite !prefix_cons, prefix_nil. reflexivity.
  - intros e He.
    rewrite (Spotify_getAuthData_eq w sthis _ N1 N2). cbv zeta. cbn [field].
    rewrite H. cbn [to_strings ToString] in *. now rewrite He.
Qed.

Lemma getAuthData_without_access_token_witness :
  snd (GitHub.getAuthData (answering (VObj [("message", VStr "Bad credentials")]))
         {| GitHub.options := []; GitHub.uriFromParams := "" |}
         (VObj [("error", VStr "bad_verification_code")]))
  = [Fetch {| url := "https://api.github.com/user";
              method := None;
              headers := [("Authorization", "token undefined")];
              body := None |}]
  /\ Spotify.getAuthData (answering VNull)
       {| Spotify.options := []; Spotify.uriFromParams := "" |}
       (VObj [("scope", VObj [("toString", VNum "1")])])
     = (Return (HError "ERROR in getAuthData: Unable to obtain auth data - TypeError: Cannot convert object to primitive value"),
        []).
Proof.
  split.
  - apply (getAuthData_without_access_token
             (answering (VObj [("message", VStr "Bad credentials")]))
             {| Spotify.options := []; Spotify.uriFromParams := "" |}
             {| GitHub.options := []; GitHub.uriFromParams := "" |}
             [("error", VStr "bad_verification_code")]).
    reflexivity.
  - destruct (getAuthData_without_access_token (answering VNull)
                {| Spotify.options := []; Spotify.uriFromParams := "" |}
                {| GitHub.options := []; GitHub.uriFromParams := "" |}
                [("scope", VObj [("toString", VNum "1")])])
      as (_ & _ & H); [reflexivity|].
    apply (H (TypeError "Cannot convert object to primitive value")).
    reflexivity.
Defined.

(** X14: the name of the first query parameter is not looked at: whatever
    stands before the first ['='], the code is cut from what follows
    it. *)
Theorem authorization_code_ignores_name (name name' rest : string) :
  JS.includes name "=" = false ->
  JS.includes name' "=" = false ->
  authorization_code (name ++ "=" ++ rest)
  = Return (parseCode (before_first "&" (before_first "=" rest)))
  /\ authorization_code (name' ++ "=" ++ rest)
     = authorization_code (name ++ "=" ++ rest).
Proof.
  assert (E : forall n, JS.includes n "=" = false ->
                authorization_code (n ++ "=" ++ rest)
                = Return (parseCode (before_first "&"
                                       (before_first "=" rest)))).
  { intros n Hn. rewrite authorization_code_eq.
    change ("=" ++ rest) with (String "=" rest).
    rewrite includes_1_append, includes_1_cons, Ascii.eqb_refl, orb_true_r.
    now rewrite after_first_append. }
  intros H H'. split; [now apply E|]. now rewrite !E.
Qed.

Lemma authorization_code_ignores_name_witness :
  authorization_code ("?code_challenge" ++ "=" ++ "xyz&code=abc")
  = Return "xyz".
Proof.
  apply (authorization_code_ignores_name "?code_challenge" "?code"
           "xyz&code=abc"); reflexivity.
Defined.

(** X15: the local router never throws: it returns either [{ userInfo }]
    or its one error value. *)
Theorem Local_router_returns (this : Local.Strategy) (ctx : OakContext) :
  (exists userInfo, fst (Local.router this ctx) = Return (HUserInfo userInfo))
  \/ fst (Local.router this ctx)
     = Return (HError "ERROR in router: No Username or Password submitted for authorization").
Proof.
  unfold Local.router. rewrite fst_try_catch, fst_bind.
  destruct (fst (body_value ctx)) as [c|e]; [|now right].
  rewrite fst_bind.
  destruct (fst (Local._authorize this c)) as [u|e]; [|now right].
  left. now exists u.
Qed.

(** X16: Spotify's profile request is a plain GET without headers whose URL
    carries all five token fields as query parameters, the access token
    and the refresh token among them, each as JavaScript prints it: text
    as it is, a number as its digits, a missing field as [undefined].
    When one of the fields cannot be printed there is no request. *)
Theorem Spotify_profile_request_url (w : World) (this : Spotify.Strategy)
  (parsed : JSValue) :
  parsed <> VUndefined -> parsed <> VNull ->
  (forall access_token token_type scope expires_in refresh_token,
     ToString (field parsed "access_token") = Return access_token ->
     ToString (field parsed "token_type") = Return token_type ->
     ToString (field parsed "scope") = Return scope ->
     ToString (field parsed "expires_in") = Return expires_in ->
     ToString (field parsed "refresh_token") = Return refresh_token ->
     snd (Spotify.getAuthData w this parsed)
     = [Fetch {| url := "https://api.spotify.com/v1/me?access_token="
                          ++ access_token
                          ++ "&token_type=" ++ token_type
                          ++ "&scope=" ++ scope
                          ++ "&expires_in=" ++ expires_in
                          ++ "&refresh_token=" ++ refresh_token;
                 method := None; headers := []; body := None |}])
  /\ (forall key e,
        In key [ "access_token"; "token_type"; "scope"; "expires_in";
                 "refresh_token" ] ->
        ToString (field parsed key) = Throw e ->
        snd (Spotify.getAuthData w this parsed) = [])
  /\ (forall s, ToString (VStr s) = Return s)
  /\ (forall printed, ToString (VNum printed) = Return printed)
  /\ ToString VUndefined = Return "undefined".
Proof.
  intros N1 N2.
  rewrite (Spotify_getAuthData_eq w this parsed N1 N2). cbv zeta.
  split; [|split; [|repeat split]].
  - intros a t s x r Ha Ht Hs Hx Hr.
    cbn [to_strings]. rewrite Ha, Ht, Hs, Hx, Hr. cbn [snd].
    unfold Spotify.profileRequest. rewrite constructURI_join, kept_None.
    cbn [map]. rewrite !concat_amp_cons by discriminate.
    unfold Spotify.authDataURL, key_value. cbn [fst snd String.concat].
    rewrite ?append_assoc. cbn [append]. rewrite ?append_assoc. reflexivity.
  - intros key e Hin He. cbn [to_strings].
    destruct (ToString (field parsed "access_token")) eqn:E1;
      [|reflexivity].
    destruct (ToString (field parsed "token_type")) eqn:E2; [|reflexivity].
    destruct (ToString (field parsed "scope")) eqn:E3; [|reflexivity].
    destruct (ToString (field parsed "expires_in")) eqn:E4; [|reflexivity].
    destruct (ToString (field parsed "refresh_token")) eqn:E5;
      [|reflexivity].
    exfalso.
    destruct Hin as [<-|[<-|[<-|[<-|[<-|[]]]]]]; congruence.
Qed.

Lemma Spotify_profile_request_url_witness :
  snd (Spotify.getAuthData (answering VNull)
         {| Spotify.options := []; Spotify.uriFromParams := "" |}
         (VObj [ ("access_token", VStr "t0k"); ("expires_in", VNum "1e+21");
                 ("refresh_token", VStr "r3f") ]))
  = [Fetch {| url := "https://api.spotify.com/v1/me?access_token=t0k&token_type=undefined&scope=undefined&expires_in=1e+21&refresh_token=r3f";
              method := None; headers := []; body := None |}]
  /\ snd (Spotify.getAuthData (answering VNull)
            {| Spotify.options := []; Spotify.uriFromParams := "" |}
            (VObj [ ("access_token", VObj [("toString", VNum "1")]) ]))
     = [].
Proof.
  split.
  - destruct (Spotify_profile_request_url (answering VNull)
                {| Spotify.options := []; Spotify.uriFromParams := "" |}
                (VObj [ ("access_token", VStr "t0k");
                        ("expires_in", VNum "1e+21");
                        ("refresh_token", VStr "r3f") ]))
      as (H & _); [discriminate | discriminate |].
    apply (H "t0k" "undefined" "undefined" "1e+21" "r3f"); reflexivity.
  - destruct (Spotify_profile_request_url (answering VNull)
                {| Spotify.options := []; Spotify.uriFromParams := "" |}
                (VObj [ ("access_token", VObj [("toString", VNum "1")]) ]))
      as (_ & H & _); [discriminate | discriminate |].
    apply (H "access_token"
             (TypeError "Cannot convert object to primitive value"));
      [now left | reflexivity].
Defined.

(** ** The strategy template *)

Lemma bind'_lift_return {A B} (a : A) (k : A -> Template.Async' B) :
  Template.bind' (Template.lift' (Return a)) k = k a.
Proof. unfold Template.bind', Template.lift'. now destruct (k a). Qed.

(** The profile phase of the template as a case analysis. *)
Lemma Template_getAuthData_eq (w : World) (this : Template.Strategy)
  (parsed : JSValue) :
  parsed <> VUndefined -> parsed <> VNull ->
  let tokenData := [ ("access_token", field parsed "access_token");
                     ("scope", field parsed "scope");
                     ("token_type", field parsed "token_type") ] in
  let logged e :=
    Template.ConsoleLog [ Template.LogText "3.4 L.252 getAuthData fetch error";
                          Template.LogExn e ] in
  Template.getAuthData w this parsed
  = match ToString (field parsed "access_token") with
    | Throw e => (Return HUndefined, [logged e])
    | Return access_token =>
        let req := Template.profileRequest access_token in
        match fetched_json w req with
        | Return data =>
            match get_prop data "id" with
            | Return id =>
                (Return (HAuthData
                           {| tokenData := tokenData;
                              userInfo :=
                                {| provider := "github";
                                   providerUserId := id;
                                   displayName := Some (field data "login");
                                   name_familyName := Some (field data "name");
                                   emails := Some [field data "email"] |} |}),
                 [Template.Outbound (Fetch req)])
            | Throw e =>
                (Return HUndefined, [Template.Outbound (Fetch req); logged e])
            end
        | Throw e =>
            (Return HUndefined, [Template.Outbound (Fetch req); logged e])
        end
    end.
Proof.
  intros N1 N2. cbv zeta.
  unfold Template.getAuthData, fetched_json, Template.do_fetch'.
  rewrite !(get_prop_field parsed) by assumption. cbn -[ToString].
  destruct (ToString _) as [access_token|e]; cbn; [|reflexivity].
  destruct (fetch w _) as [r|e]; cbn; [|reflexivity].
  destruct (json w r) as [data|e]; cbn; [|reflexivity].
  destruct data; reflexivity.
Qed.

(** The code exchange of the template as a case analysis. *)
Lemma Template_getAuthToken_eq (w : World) (this : Template.Strategy)
  (ctx : OakContext) (code : string) :
  authorization_code (search ctx) = Return code ->
  let req := Template.tokenRequest this code in
  let noted :=
    if JS.includes (search ctx) "error"
    then [Template.ConsoleLog [Template.LogText "broke the code again"]]
    else [] in
  Template.getAuthToken w this ctx
  = match fetched_json w req with
    | Throw e => (Return HUndefined, noted ++ [Template.Outbound (Fetch req)])
    | Return data =>
        match get_prop data "type" with
        | Throw e =>
            (Return HUndefined, noted ++ [Template.Outbound (Fetch req)])
        | Return type =>
            if is_string type "oAuthException"
            then (Return HUndefined,
                  noted ++ [ Template.Outbound (Fetch req);
                             Template.ConsoleLog
                               [Template.LogText
                                  "token request threw oauth exception"] ])
            else (fst (Template.getAuthData w this data),
                  noted ++ Template.Outbound (Fetch req)
                           :: snd (Template.getAuthData w this data))
        end
    end%list.
Proof.
  intros Hc. cbv zeta.
  unfold Template.getAuthToken. rewrite Hc.
  unfold fetched_json, Template.do_fetch'.
  destruct (JS.includes (search ctx) "error");
    cbn -[Template.getAuthData];
    (destruct (fetch w _) as [r|e]; cbn -[Template.getAuthData];
       [|reflexivity]);
    (destruct (json w r) as [data|e]; cbn -[Template.getAuthData];
       [|reflexivity]);
    (destruct (get_prop data "type") as [ty|e]; cbn -[Template.getAuthData];
       [|reflexivity]);
    (destruct (is_string ty "oAuthException"); cbn -[Template.getAuthData];
       [reflexivity|]);
    now destruct (Template.getAuthData w this data).
Qed.

Lemma Template_constructor_inv (opts : Entries) (this : Template.Strategy) :
  Template.constructor opts = Return this ->
  Template.options this = opts
  /\ Template.authURL this = GitHub.authURL
  /\ Template.uriFromParams this = constructURI opts None.
Proof.
  unfold Template.constructor. destruct (_ || _); [discriminate|].
  intros [= <-]. auto.
Qed.

(** X17: as long as the query has no ["error"], the template does to the
    outside what [GitHubStrategy] does, and returns what it returns --
    except that every error value of [GitHubStrategy] is [undefined]
    here: a failed exchange cannot be told from an unhandled request. *)
Theorem Template_follows_GitHub (w : World) (opts : Entries)
  (t : Template.Strategy) (g : GitHub.Strategy) (ctx : OakContext) :
  Template.constructor opts = Return t ->
  GitHub.constructor opts = Return g ->
  JS.includes (search ctx) "error" = false ->
  fst (Template.router w t ctx) = swallow (fst (GitHub.router w g ctx))
  /\ Template.outbound (snd (Template.router w t ctx))
     = snd (GitHub.router w g ctx).
Proof.
  intros Ht Hg He.
  apply Template_constructor_inv in Ht as (To & Ta & Tu).
  apply GitHub_constructor_inv in Hg as (Go & Gu).
  unfold Template.router, GitHub.router, Template.route, GitHub.route.
  destruct (String.eqb (search ctx) "").
  { unfold Template.authorize, GitHub.authorize. rewrite Ta, Tu, Gu.
    split; reflexivity. }
  destruct (String.eqb (JS.slice (search ctx) 1 5) "code");
    [|split; reflexivity].
  destruct (authorization_code (search ctx)) as [code|e] eqn:Hc.
  2:{ unfold Template.getAuthToken, GitHub.getAuthToken.
      rewrite He, Hc. split; reflexivity. }
  rewrite (Template_getAuthToken_eq w t ctx code Hc).
  rewrite (GitHub_getAuthToken_eq w g ctx code He Hc). cbv zeta.
  rewrite He. cbn [app].
  assert (R : Template.tokenRequest t code = GitHub.tokenRequest g code).
  { unfold Template.tokenRequest, GitHub.tokenRequest. now rewrite To, Go. }
  rewrite R.
  destruct (fetched_json w _) as [data|e]; [|split; reflexivity].
  destruct (get_prop data "type") as [ty|e] eqn:Ety; [|split; reflexivity].
  destruct (is_string ty "oAuthException"); [split; reflexivity|].
  apply get_prop_returns in Ety as [N1 N2].
  rewrite (Template_getAuthData_eq w t data N1 N2).
  rewrite (GitHub_getAuthData_eq w g data N1 N2). cbv zeta.
  destruct (ToString _) as [access_token|e]; [|split; reflexivity].
  change (Template.profileRequest access_token)
    with (GitHub.profileRequest access_token).
  destruct (fetched_json w _) as [d|e]; [|split; reflexivity].
  destruct (get_prop d "id"); split; reflexivity.
Qed.

Lemma Template_follows_GitHub_witness :
  let opts := [ ("client_id", "id"); ("redirect_uri", "http://localhost/cb");
                ("client_secret", "s3cr3t") ] in
  let t := {| Template.options := opts;
              Template.authURL := "https://github.com/login/oauth/authorize?";
              Template.tokenURL := "https://github.com/login/oauth/access_token?";
              Template.authDataURL := "https://api.github.com/user?";
              Template.uriFromParams := constructURI opts None |} in
  let g := {| GitHub.options := opts;
              GitHub.uriFromParams := constructURI opts None |} in
  let ctx := {| search := "?code=abc"; body_value := ret VUndefined |} in
  fst (Template.router (answering VNull) t ctx)
  = swallow (fst (GitHub.router (answering VNull) g ctx))
  /\ fst (Template.router (answering VNull) t ctx) = Return HUndefined.
Proof.
  intros opts t g ctx. split.
  - apply (Template_follows_GitHub (answering VNull) opts t g ctx);
      reflexivity.
  - reflexivity.
Defined.

(** X18: in the template an ["error"] in the callback query stops nothing:
    a line is written to the console and the token request is sent with
    whatever follows the first ['=']. *)
Theorem Template_error_not_stopped (w : World) (t : Template.Strategy)
  (ctx : OakContext) (code : string) :
  JS.includes (search ctx) "error" = true ->
  authorization_code (search ctx) = Return code ->
  exists rest,
    snd (Template.getAuthToken w t ctx)
    = Template.ConsoleLog [Template.LogText "broke the code again"]
        :: Template.Outbound (Fetch (Template.tokenRequest t code)) :: rest.
Proof.
  intros He Hc. rewrite (Template_getAuthToken_eq w t ctx code Hc).
  cbv zeta. rewrite He.
  destruct (fetched_json w _) as [data|e]; [|now eexists].
  destruct (get_prop data "type") as [ty|e]; [|now eexists].
  destruct (is_string ty "oAuthException"); now eexists.
Qed.

Lemma Template_error_not_stopped_witness :
  exists rest,
    snd (Template.getAuthToken (answering VNull)
           {| Template.options := []; Template.authURL := "";
              Template.tokenURL := ""; Template.authDataURL := "";
              Template.uriFromParams := "" |}
           {| search := "?error=access_denied&state=xyz";
              body_value := ret VUndefined |})
    = Template.ConsoleLog [Template.LogText "broke the code again"]
        :: Template.Outbound
             (Fetch (Template.tokenRequest
                       {| Template.options := []; Template.authURL := "";
                          Template.tokenURL := ""; Template.authDataURL := "";
                          Template.uriFromParams := "" |} "access_denied"))
        :: rest.
Proof.
  apply (Template_error_not_stopped (answering VNull)); reflexivity.
Defined.

(** X19: the template's entry point never returns an error value: it
    returns an [AuthData] or [undefined], or throws for a query that is
    dispatched to the code exchange without an ['=']. *)
Theorem Template_router_result (w : World) (t : Template.Strategy)
  (ctx : OakContext) :
  (exists authData, fst (Template.router w t ctx) = Return (HAuthData authData))
  \/ fst (Template.router w t ctx) = Return HUndefined
  \/ (JS.includes (search ctx) "=" = false
      /\ fst (Template.router w t ctx)
         = Throw (TypeError "Cannot read properties of undefined (reading 'split')")).
Proof.
  unfold Template.router. destruct (Template.route ctx);
    [right; left; reflexivity | | right; left; reflexivity].
  destruct (authorization_code (search ctx)) as [code|e] eqn:Hc.
  - rewrite (Template_getAuthToken_eq w t ctx code Hc). cbv zeta.
    destruct (fetched_json w _) as [data|e]; [|right; left; reflexivity].
    destruct (get_prop data "type") as [ty|e] eqn:Ety;
      [|right; left; reflexivity].
    destruct (is_string ty "oAuthException"); [right; left; reflexivity|].
    apply get_prop_returns in Ety as [N1 N2]. cbn [fst].
    rewrite (Template_getAuthData_eq w t data N1 N2). cbv zeta.
    destruct (ToString _) as [access_token|e]; [|right; left; reflexivity].
    destruct (fetched_json w _) as [d|e]; [|right; left; reflexivity].
    destruct (get_prop d "id"); [left; now eexists | right; left; reflexivity].
  - right. right. rewrite authorization_code_eq in Hc.
    destruct (JS.includes (search ctx) "=") eqn:E; [discriminate|].
    split; [reflexivity|].
    unfold Template.getAuthToken. rewrite authorization_code_eq, E.
    now destruct (JS.includes (search ctx) "error").
Qed.
